(** * Gemini-Backend-Clone: the generation job pipeline

    A shallow embedding of the asynchronous job pipeline of the backend:
    - [src/jobs/geminiQueue.js]      queue set-up, mock queue, job processor,
                                     enqueue and statistics;
    - [src/services/geminiService.js] prompt assembly and the call of the
                                     generation collaborator;
    - [src/services/cacheService.js]  the chatroom-list cache;
    - [routes/chatroom.js]            the chatroom-mutating HTTP handlers.

    The second part adds the reading handlers of [routes/chatroom.js], the
    other entries of the cache, the other calls of the generation
    collaborator, [src/middleware/rateLimiter.js],
    [src/middleware/errorHandler.js] and the retry strategies of the two
    connections.

    JavaScript's [async] functions are sequential between their [await]s, so
    each is embedded as a computation in a state-and-exception monad over a
    [world] that holds the relational store, the Redis backend, the module
    level variable [geminiQueue], the clock and the observable events.
    Calls of [logger] change nothing that is modelled and are left out. *)

From Stdlib Require Import ZArith Lia.
From stdpp Require Import base option list sorting strings gmap pretty.

(** ** Values of the data model *)

(** [messages.status] *)
Inductive status := pending | processing | completed | failed.

(** [messages.message_type] *)
Inductive message_type := user | ai.

Global Instance status_eq_dec : EqDecision status.
Proof. solve_decision. Defined.

Global Instance message_type_eq_dec : EqDecision message_type.
Proof. solve_decision. Defined.

(** A row of the table [messages] (models/schema.js). *)
Record message := Message {
  msg_id : Z;
  msg_chatroom_id : Z;
  msg_user_id : Z;
  msg_content : string;
  msg_message_type : message_type;
  msg_gemini_response : option string;
  msg_status : status;
  msg_created_at : Z;
  msg_updated_at : Z
}.

(** A row of the table [chatrooms]. *)
Record chatroom := Chatroom {
  room_id : Z;
  room_user_id : Z;
  room_title : string;
  room_description : option string;
  room_created_at : Z;
  room_updated_at : Z
}.

(** JavaScript values, as far as response bodies and option objects need
    them.  An object is the list of its properties in insertion order. *)
#[warnings="-register-all"]
Inductive jsval :=
| JNull
| JBool (b : bool)
| JNum (n : Z)
| JStr (s : string)
| JArr (l : list jsval)
| JObj (props : list (string * jsval)).

(** The values a JavaScript [throw] carries here. *)
Inductive error :=
| StoreError                      (* pool.query rejected: connection or constraint *)
| RedisError                      (* a Redis command rejected *)
| RedisNotInitialized             (* getRedis: 'Redis not initialized' *)
| RedisPingFailed                 (* 'Redis ping failed' *)
| QueueNotInitialized             (* 'Gemini queue not initialized' *)
| GenerationFailure (why : string)(* the generation collaborator threw *)
| SyntaxError                     (* JSON.parse *)
| HeadersSent.                    (* res.json on a response already sent *)

Global Instance error_eq_dec : EqDecision error.
Proof. solve_decision. Defined.

(** Outcome of a computation: a value or a thrown error. *)
Inductive result (A : Type) :=
| Ok (a : A)
| Throw (e : error).
Arguments Ok {A} a.
Arguments Throw {A} e.

(** ** The queue *)

(** Payload of a generation job: [job.data]. *)
Record job_data := JobData {
  messageId : Z;
  chatroomId : Z;
  userId : Z;
  userMessage : string
}.

Inductive job_state := st_waiting | st_active | st_completed | st_failed.

Global Instance job_state_eq_dec : EqDecision job_state.
Proof. solve_decision. Defined.

(** A job as the durable queue records it. *)
Record job := Job {
  job_id : string;
  data : job_data;
  state : job_state;
  attemptsMade : nat;
  available_at : Z;
  last_error : option error
}.

(** The two objects [geminiQueue] can hold: the BullMQ queue with its jobs
    and its id counter, or the object built by [createMockQueue]. *)
Inductive queue :=
| BullQueue (jobs : list job) (counter : Z)
| MockQueue.

(** ** Observable events *)

Inductive event :=
| EvInvalidate (uid : Z)              (* clearChatroomCache(uid) entered *)
| EvRedisDel (key : string) (ok : bool)  (* redis.del issued; did it succeed *)
| EvRespond (code : Z) (body : jsval) (* res.status(code).json(body) *)
| EvNext (e : error)                  (* next(error) *)
| EvNewQueue (name : string) (defaults : jsval)
                                      (* new Queue(name, {defaultJobOptions}) *)
| EvNewWorker (name : string) (options : jsval).
                                      (* new Worker(name, processor, options) *)

(** ** The world *)

Record world := World {
  messages : list message;
  chatrooms : list chatroom;
  usage : gmap Z Z;              (* users.daily_usage_count by user id *)
  message_seq : Z;               (* serial of messages.id *)
  chatroom_seq : Z;              (* serial of chatrooms.id *)
  now : Z;                       (* CURRENT_TIMESTAMP / Date.now(), in ms *)
  pool_faults : list bool;       (* fate of the next pool.query calls *)
  redis : option (gmap string (string * Z)); (* config/redis.js [redis] *)
  redis_faults : list bool;      (* fate of the next Redis commands *)
  geminiQueue : option queue;    (* jobs/geminiQueue.js [geminiQueue] *)
  generateContent : string -> result string; (* model.generateContent *)
  events : list event            (* most recent first *)
}.

Definition with_messages (f : list message -> list message) (w : world) : world :=
  World (f (messages w)) (chatrooms w) (usage w) (message_seq w) (chatroom_seq w)
        (now w) (pool_faults w) (redis w) (redis_faults w) (geminiQueue w)
        (generateContent w) (events w).

Definition with_chatrooms (f : list chatroom -> list chatroom) (w : world) : world :=
  World (messages w) (f (chatrooms w)) (usage w) (message_seq w) (chatroom_seq w)
        (now w) (pool_faults w) (redis w) (redis_faults w) (geminiQueue w)
        (generateContent w) (events w).

Definition with_usage (f : gmap Z Z -> gmap Z Z) (w : world) : world :=
  World (messages w) (chatrooms w) (f (usage w)) (message_seq w) (chatroom_seq w)
        (now w) (pool_faults w) (redis w) (redis_faults w) (geminiQueue w)
        (generateContent w) (events w).

Definition with_message_seq (n : Z) (w : world) : world :=
  World (messages w) (chatrooms w) (usage w) n (chatroom_seq w)
        (now w) (pool_faults w) (redis w) (redis_faults w) (geminiQueue w)
        (generateContent w) (events w).

Definition with_chatroom_seq (n : Z) (w : world) : world :=
  World (messages w) (chatrooms w) (usage w) (message_seq w) n
        (now w) (pool_faults w) (redis w) (redis_faults w) (geminiQueue w)
        (generateContent w) (events w).

Definition with_now (t : Z) (w : world) : world :=
  World (messages w) (chatrooms w) (usage w) (message_seq w) (chatroom_seq w)
        t (pool_faults w) (redis w) (redis_faults w) (geminiQueue w)
        (generateContent w) (events w).

Definition with_pool_faults (fs : list bool) (w : world) : world :=
  World (messages w) (chatrooms w) (usage w) (message_seq w) (chatroom_seq w)
        (now w) fs (redis w) (redis_faults w) (geminiQueue w)
        (generateContent w) (events w).

Definition with_redis (r : option (gmap string (string * Z))) (w : world) : world :=
  World (messages w) (chatrooms w) (usage w) (message_seq w) (chatroom_seq w)
        (now w) (pool_faults w) r (redis_faults w) (geminiQueue w)
        (generateContent w) (events w).

Definition with_redis_faults (fs : list bool) (w : world) : world :=
  World (messages w) (chatrooms w) (usage w) (message_seq w) (chatroom_seq w)
        (now w) (pool_faults w) (redis w) fs (geminiQueue w)
        (generateContent w) (events w).

Definition with_geminiQueue (q : option queue) (w : world) : world :=
  World (messages w) (chatrooms w) (usage w) (message_seq w) (chatroom_seq w)
        (now w) (pool_faults w) (redis w) (redis_faults w) q
        (generateContent w) (events w).

Definition with_generateContent (g : string -> result string) (w : world) : world :=
  World (messages w) (chatrooms w) (usage w) (message_seq w) (chatroom_seq w)
        (now w) (pool_faults w) (redis w) (redis_faults w) (geminiQueue w)
        g (events w).

Definition with_events (es : list event) (w : world) : world :=
  World (messages w) (chatrooms w) (usage w) (message_seq w) (chatroom_seq w)
        (now w) (pool_faults w) (redis w) (redis_faults w) (geminiQueue w)
        (generateContent w) es.

(** ** The monad of asynchronous functions

    An [async] function is run to its end from a world; it yields a value or
    a thrown error, and the world as it has left it.  What it changed before
    a [throw] stays changed, as in JavaScript. *)

Definition M (A : Type) : Type := world -> result A * world.

Definition ret {A} (a : A) : M A := fun w => (Ok a, w).

Definition throw {A} (e : error) : M A := fun w => (Throw e, w).

Definition bind {A B} (m : M A) (k : A -> M B) : M B := fun w =>
  match m w with
  | (Ok a, w') => k a w'
  | (Throw e, w') => (Throw e, w')
  end.

(** [try { m } catch (error) { h error }] *)
Definition try_catch {A} (m : M A) (h : error -> M A) : M A := fun w =>
  match m w with
  | (Ok a, w') => (Ok a, w')
  | (Throw e, w') => h e w'
  end.

Definition get_world : M world := fun w => (Ok w, w).

Definition modify (f : world -> world) : M unit := fun w => (Ok tt, f w).

Definition emit (e : event) : M unit := modify (fun w => with_events (e :: events w) w).

Declare Scope async_scope.
Delimit Scope async_scope with async.
Notation "x <- m ;; k" := (bind m (fun x => k))
  (at level 100, m at next level, right associativity) : async_scope.
Notation "m ;;; k" := (bind m (fun _ => k))
  (at level 100, right associativity) : async_scope.
Open Scope async_scope.

(** The world a computation leaves, and what it yields. *)
Definition exec {A} (m : M A) (w : world) : world := (m w).2.
Definition eval {A} (m : M A) (w : world) : result A := (m w).1.

(** ** The relational store: [pool.query]

    A query is rejected when the head of [pool_faults] says so; an empty
    schedule is a store that answers every query. *)

Definition pool_query {A} (q : world -> result A * world) : M A := fun w =>
  match pool_faults w with
  | true :: fs => (Throw StoreError, with_pool_faults fs w)
  | false :: fs => q (with_pool_faults fs w)
  | [] => q w
  end.

(** [UPDATE messages SET status = $1 WHERE id = $2] *)
Definition set_status (s : status) (i : Z) (m : message) : message :=
  if decide (msg_id m = i)
  then Message (msg_id m) (msg_chatroom_id m) (msg_user_id m) (msg_content m)
               (msg_message_type m) (msg_gemini_response m) s
               (msg_created_at m) (msg_updated_at m)
  else m.

Definition update_message_status (s : status) (i : Z) : M unit :=
  pool_query (fun w => (Ok tt, with_messages (fmap (set_status s i)) w)).

(** [UPDATE messages SET gemini_response = $1, content = $2, status = $3,
     updated_at = CURRENT_TIMESTAMP WHERE id = $4] *)
Definition set_response (resp text : string) (s : status) (t : Z) (i : Z)
    (m : message) : message :=
  if decide (msg_id m = i)
  then Message (msg_id m) (msg_chatroom_id m) (msg_user_id m) text
               (msg_message_type m) (Some resp) s (msg_created_at m) t
  else m.

Definition update_message_response (resp text : string) (s : status) (i : Z) : M unit :=
  pool_query (fun w => (Ok tt, with_messages (fmap (set_response resp text s (now w) i)) w)).

(** [UPDATE messages SET status = $1, content = $2,
     updated_at = CURRENT_TIMESTAMP WHERE id = $3] *)
Definition set_status_content (s : status) (text : string) (t : Z) (i : Z)
    (m : message) : message :=
  if decide (msg_id m = i)
  then Message (msg_id m) (msg_chatroom_id m) (msg_user_id m) text
               (msg_message_type m) (msg_gemini_response m) s
               (msg_created_at m) t
  else m.

Definition update_message_failed (s : status) (text : string) (i : Z) : M unit :=
  pool_query (fun w => (Ok tt, with_messages (fmap (set_status_content s text (now w) i)) w)).

(** ** services/geminiService.js *)

(** A row of the history query: [content, message_type, created_at]. *)
Record history_row := HistoryRow {
  content : string;
  message_type_of : message_type;
  created_at : Z
}.

Definition history_of (m : message) : history_row :=
  HistoryRow (msg_content m) (msg_message_type m) (msg_created_at m).

(** [ORDER BY created_at DESC] *)
Definition newer_first (a b : message) : Prop := (msg_created_at b <= msg_created_at a)%Z.

Global Instance newer_first_dec a b : Decision (newer_first a b).
Proof. unfold newer_first. apply _. Defined.

(** [WHERE chatroom_id = $1 AND status = 'completed'] *)
Definition completed_in (room : Z) (m : message) : Prop :=
  msg_chatroom_id m = room /\ msg_status m = completed.

Global Instance completed_in_dec room m : Decision (completed_in room m).
Proof. unfold completed_in. apply _. Defined.

(** The rows selected by
    [SELECT content, message_type, created_at FROM messages
     WHERE chatroom_id = $1 AND status = 'completed'
     ORDER BY created_at DESC LIMIT 10], before the projection. *)
Definition recent_completed (room : Z) (ms : list message) : list message :=
  take 10 (merge_sort newer_first (filter (completed_in room) ms)).

Definition select_history (room : Z) : M (list history_row) :=
  pool_query (fun w => (Ok (history_of <$> recent_completed room (messages w)), w)).

(** The line feed of the template strings. *)
Definition nl : string := String (Ascii.ascii_of_nat 10) EmptyString.

(** [`${msg.message_type === 'user' ? 'User' : 'Assistant'}: ${msg.content}`] *)
Definition history_line (r : history_row) : string :=
  (if decide (message_type_of r = user) then "User" else "Assistant") +:+ ": " +:+ content r.

(** The prompt of [generateResponse]. *)
Definition build_prompt (userMessage : string) (conversationHistory : list history_row) : string :=
  if decide (0 < length conversationHistory)%nat
  then "Previous conversation:" +:+ nl
         +:+ String.concat nl (history_line <$> conversationHistory)
         +:+ nl +:+ nl +:+ "User: " +:+ userMessage
  else userMessage.

Definition apology : string :=
  "I apologize, but I encountered an error while processing your request. Please try again later.".

(** [model.generateContent(prompt)], then [result.response] and
    [response.text()]: the text, or whatever the collaborator threw. *)
Definition call_model (prompt : string) : M string := fun w =>
  (generateContent w prompt, w).

Definition generateResponse (userMessage : string) (conversationHistory : list history_row)
    : M string :=
  try_catch
    (text <- call_model (build_prompt userMessage conversationHistory) ;;
     ret text)
    (fun _ => ret apology).

Definition generateResponseWithContext (userMessage : string) (chatroomId : Z) : M string :=
  try_catch
    (rows <- select_history chatroomId ;;
     let conversationHistory := reverse rows in
     generateResponse userMessage conversationHistory)
    (fun _ => generateResponse userMessage []).

(** ** jobs/geminiQueue.js: the job processor *)

Definition fallback_text : string :=
  "Sorry, I encountered an error processing your request. Please try again.".

(** What [processGeminiJob] returns: [{ success: true, messageId, response }]. *)
Record job_result := JobResult {
  success : bool;
  result_messageId : Z;
  response : string
}.

Definition processGeminiJob (d : job_data) : M job_result :=
  try_catch
    (update_message_status processing (messageId d) ;;;
     geminiResponse <- generateResponseWithContext (userMessage d) (chatroomId d) ;;
     update_message_response geminiResponse geminiResponse completed (messageId d) ;;;
     ret (JobResult true (messageId d) geminiResponse))
    (fun e =>
       update_message_failed failed fallback_text (messageId d) ;;;
       throw e).

(** ** config/redis.js and the Redis commands *)

(** [getRedis()]: the client, or 'Redis not initialized'. *)
Definition getRedis : M unit := fun w =>
  match redis w with
  | Some _ => (Ok tt, w)
  | None => (Throw RedisNotInitialized, w)
  end.

(** A command sent to the Redis server.  It is rejected when the head of
    [redis_faults] says so; otherwise [c] computes the reply and the new
    key space from the key space and the time. *)
Definition redis_command {A}
    (c : gmap string (string * Z) -> Z -> A * gmap string (string * Z)) : M A := fun w =>
  match redis w with
  | None => (Throw RedisNotInitialized, w)
  | Some r =>
      match redis_faults w with
      | true :: fs => (Throw RedisError, with_redis_faults fs w)
      | false :: fs =>
          let '(a, r') := c r (now w) in
          (Ok a, with_redis (Some r') (with_redis_faults fs w))
      | [] =>
          let '(a, r') := c r (now w) in
          (Ok a, with_redis (Some r') w)
      end
  end.

(** [redis.get(key)]: the value of a key that has not expired. *)
Definition redis_get (key : string) : M (option string) :=
  redis_command (fun r t =>
    match r !! key with
    | Some (v, expires) => if decide (t < expires)%Z then (Some v, r) else (None, delete key r)
    | None => (None, r)
    end).

(** [redis.setex(key, ttl, value)], [ttl] in seconds. *)
Definition redis_setex (key : string) (ttl : Z) (v : string) : M unit :=
  redis_command (fun r t => (tt, <[key := (v, (t + ttl * 1000)%Z)]> r)).

(** [redis.del(key)]: the number of keys removed. *)
Definition redis_del (key : string) : M Z :=
  try_catch
    (n <- redis_command (fun r t =>
            (match r !! key with Some _ => 1%Z | None => 0%Z end, delete key r)) ;;
     emit (EvRedisDel key true) ;;;
     ret n)
    (fun e => emit (EvRedisDel key false) ;;; throw e).

(** [redis.ping()] *)
Definition redis_ping : M string :=
  redis_command (fun r _ => ("PONG", r)).

(** ** services/cacheService.js *)

Definition CHATROOM_CACHE_KEY : string := "chatrooms:user:".
Definition CACHE_TTL : Z := 300.

(** [`${CHATROOM_CACHE_KEY}${userId}`] *)
Definition chatroom_key (userId : Z) : string := CHATROOM_CACHE_KEY +:+ pretty userId.

Section cache.
(** [JSON.parse] throws a SyntaxError on text that is not JSON. *)
Variable JSON_parse : string -> option jsval.
Variable JSON_stringify : jsval -> string.

Definition getCachedChatrooms (userId : Z) : M jsval :=
  try_catch
    (getRedis ;;;
     let key := chatroom_key userId in
     cachedData <- redis_get key ;;
     match cachedData with
     | Some (String c s) =>
         match JSON_parse (String c s) with
         | Some v => ret v
         | None => throw SyntaxError
         end
     | Some EmptyString | None => ret JNull
     end)
    (fun _ => ret JNull).

Definition setCachedChatrooms (userId : Z) (chatrooms : jsval) (ttl : Z) : M unit :=
  try_catch
    (getRedis ;;;
     let key := chatroom_key userId in
     redis_setex key ttl (JSON_stringify chatrooms))
    (fun _ => ret tt).
End cache.

Definition clearChatroomCache (userId : Z) : M unit :=
  emit (EvInvalidate userId) ;;;
  try_catch
    (getRedis ;;;
     let key := chatroom_key userId in
     redis_del key ;;;
     ret tt)
    (fun _ => ret tt).

(** ** jobs/geminiQueue.js: configuration *)

(** Assignment [o[k] = v] on an object: an existing property keeps its
    place and takes the new value, a new one goes to the end. *)
Fixpoint js_set (k : string) (v : jsval) (o : list (string * jsval)) : list (string * jsval) :=
  match o with
  | [] => [(k, v)]
  | (k', v') :: o' => if decide (k' = k) then (k, v) :: o' else (k', v') :: js_set k v o'
  end.

(** An object literal [{ k1: v1, ..., kn: vn }]: the properties are defined
    from left to right, so of two with one name the later one stays. *)
Definition js_object (props : list (string * jsval)) : jsval :=
  JObj (foldl (fun o kv => js_set kv.1 kv.2 o) [] props).

Fixpoint js_lookup (k : string) (o : list (string * jsval)) : option jsval :=
  match o with
  | [] => None
  | (k', v) :: o' => if decide (k' = k) then Some v else js_lookup k o'
  end.

(** Property access [o.k] ([undefined] is [None]). *)
Definition js_get (k : string) (o : jsval) : option jsval :=
  match o with
  | JObj props => js_lookup k props
  | _ => None
  end.

Definition js_num (v : option jsval) : option Z :=
  match v with Some (JNum n) => Some n | _ => None end.

(** The [defaultJobOptions] of [new Queue('gemini-responses', ...)]. *)
Definition defaultJobOptions : jsval :=
  js_object [
    ("removeOnComplete", JNum 100);
    ("removeOnFail", JNum 50);
    ("attempts", JNum 3);
    ("backoff", js_object [("type", JStr "exponential"); ("delay", JNum 1000)]);
    ("timeout", JNum 30000);
    ("backoff", js_object [("type", JStr "exponential"); ("delay", JNum 2000)])
  ].

(** The options of [new Worker('gemini-responses', processGeminiJob, ...)],
    without [connection], which is read from the environment. *)
Definition workerOptions : jsval :=
  js_object [
    ("concurrency", JNum 2);
    ("lockDuration", JNum 30000);
    ("stalledInterval", JNum 15000);
    ("maxStalledCount", JNum 2);
    ("lockRenewTime", JNum 15000);
    ("drainDelay", JNum 5000)
  ].

(** The options [addGeminiJob] passes to [geminiQueue.add]. *)
Definition addOptions : jsval :=
  js_object [("priority", JNum 1); ("delay", JNum 0)].

(** ** jobs/geminiQueue.js: the queue object *)

(** What [geminiQueue.add] resolves to: the job, of which callers read
    [id] and [data]. *)
Record job_handle := JobHandle {
  handle_id : string;
  handle_data : job_data
}.

(** [createMockQueue().add]: the processor runs at once, inside the call. *)
Definition mock_add (name : string) (d : job_data) (options : jsval) : M job_handle :=
  try_catch
    (processGeminiJob d ;;;
     w <- get_world ;;
     ret (JobHandle (pretty (now w)) d))
    (fun e => throw e).

(** A command of the durable queue on its backend. *)
Definition queue_command {A} (c : list job -> Z -> Z -> A * (list job * Z)) : M A := fun w =>
  match geminiQueue w with
  | Some (BullQueue jobs counter) =>
      match redis_faults w with
      | true :: fs => (Throw RedisError, with_redis_faults fs w)
      | false :: fs =>
          let '(a, (jobs', counter')) := c jobs counter (now w) in
          (Ok a, with_geminiQueue (Some (BullQueue jobs' counter')) (with_redis_faults fs w))
      | [] =>
          let '(a, (jobs', counter')) := c jobs counter (now w) in
          (Ok a, with_geminiQueue (Some (BullQueue jobs' counter')) w)
      end
  | _ => (Throw QueueNotInitialized, w)
  end.

(** Modelled from the spec: [Queue.add] of the durable queue (BullMQ, a
    dependency that is not part of the sources).  "enqueue(kind, payload,
    options) -> jobId.  Must be append-only durable; on backend
    unavailability, fails": the job is appended in state waiting, eligible
    after the delay of the options, under the next job id. *)
Definition bull_add (name : string) (d : job_data) (options : jsval) : M job_handle :=
  queue_command (fun jobs counter t =>
    let i := pretty (counter + 1)%Z in
    let delay := default 0%Z (js_num (js_get "delay" options)) in
    (JobHandle i d,
     (jobs ++ [Job i d st_waiting 0 (t + delay)%Z None], (counter + 1)%Z))).

(** [geminiQueue.add(name, data, options)] on either object. *)
Definition queue_add (q : queue) (name : string) (d : job_data) (options : jsval)
    : M job_handle :=
  match q with
  | MockQueue => mock_add name d options
  | BullQueue _ _ => bull_add name d options
  end.

(** [geminiQueue.getWaiting()], [getActive()], [getCompleted()],
    [getFailed()]: the mock answers [[]]. *)
Definition queue_get (q : queue) (s : job_state) : M (list job) :=
  match q with
  | MockQueue => ret []
  | BullQueue _ _ =>
      queue_command (fun jobs counter _ =>
        (filter (fun j => state j = s) jobs, (jobs, counter)))
  end.

Definition createMockQueue : M unit :=
  modify (with_geminiQueue (Some MockQueue)).

(** [geminiQueue = new Queue('gemini-responses', {connection,
    defaultJobOptions})]: the call is recorded with the options it hands to
    BullMQ, and the variable holds the queue, which has no job yet. *)
Definition new_queue (name : string) (defaults : jsval) : M unit :=
  emit (EvNewQueue name defaults) ;;;
  modify (with_geminiQueue (Some (BullQueue [] 0))).

(** [geminiWorker = new Worker('gemini-responses', processGeminiJob,
    {connection, ...})], recorded with its options; the processor is
    [processGeminiJob], which [worker_step] below runs. *)
Definition new_worker (name : string) (options : jsval) : M unit :=
  emit (EvNewWorker name options).

Definition initializeGeminiQueue : M unit :=
  try_catch
    (getRedis ;;;
     pingResult <- try_catch redis_ping (fun e => throw e) ;;
     (if decide (pingResult = "PONG") then ret tt else throw RedisPingFailed) ;;;
     new_queue "gemini-responses" defaultJobOptions ;;;
     new_worker "gemini-responses" workerOptions)
    (fun _ => createMockQueue).

Definition addGeminiJob (jobData : job_data) : M job_handle :=
  try_catch
    (w <- get_world ;;
     match geminiQueue w with
     | None => throw QueueNotInitialized
     | Some q =>
         job <- queue_add q "process-message" jobData addOptions ;;
         ret job
     end)
    (fun e => throw e).

Module Stats.
(** The record [getQueueStats] returns. *)
Record t := Make {
  waiting : nat;
  active : nat;
  completed : nat;
  failed : nat;
  total : nat
}.
End Stats.

Definition getQueueStats : M Stats.t :=
  try_catch
    (w <- get_world ;;
     match geminiQueue w with
     | None => throw QueueNotInitialized
     | Some q =>
         waiting <- queue_get q st_waiting ;;
         active <- queue_get q st_active ;;
         completed <- queue_get q st_completed ;;
         failed <- queue_get q st_failed ;;
         ret (Stats.Make (length waiting) (length active) (length completed) (length failed)
                (length waiting + length active + length completed + length failed))
     end)
    (fun _ => ret (Stats.Make 0 0 0 0 0)).

(** ** The worker of the durable queue *)

(** [attempts] and [backoff.delay] as the queue was constructed with them. *)
Definition attempts_limit : nat :=
  Z.to_nat (default 1%Z (js_num (js_get "attempts" defaultJobOptions))).

Definition backoff_base : Z :=
  default 0%Z (js_num (js_get "delay" (default JNull (js_get "backoff" defaultJobOptions)))).

(** The oldest waiting job: all jobs are added with one priority. *)
Definition find_waiting (jobs : list job) : option job :=
  snd <$> list_find (fun j => state j = st_waiting) jobs.

Definition update_job (i : string) (f : job -> job) (jobs : list job) : list job :=
  (fun j => if decide (job_id j = i) then f j else j) <$> jobs.

Definition set_state (s : job_state) (j : job) : job :=
  Job (job_id j) (data j) s (attemptsMade j) (available_at j) (last_error j).

(** Modelled from the spec: [fail(jobId, error, {retry: true})] of the
    durable queue.  "if retry and attempts < maxAttempts, reschedules to
    waiting with exponential backoff delay = base * 2^attempts; else marks
    failed permanently with last_error recorded"; "a retried job re-enters
    at the back with its new eligibility time". *)
Definition fail_job (t : Z) (i : string) (e : error) (jobs : list job) : list job :=
  match list_find (fun j => job_id j = i) jobs with
  | None => jobs
  | Some (_, j) =>
      let attempts := S (attemptsMade j) in
      if decide (attempts < attempts_limit)%nat
      then filter (fun j' => job_id j' ≠ i) jobs
             ++ [Job i (data j) st_waiting attempts
                   (t + backoff_base * 2 ^ Z.of_nat attempts)%Z (Some e)]
      else update_job i (fun _ => Job i (data j) st_failed attempts (available_at j) (Some e)) jobs
  end.

Definition set_jobs (f : list job -> list job) : M unit :=
  modify (fun w =>
    match geminiQueue w with
    | Some (BullQueue jobs counter) => with_geminiQueue (Some (BullQueue (f jobs) counter)) w
    | _ => w
    end).

(** Modelled from the spec: one turn of the worker loop of the durable
    queue (BullMQ's [Worker], not part of the sources), "lease -> execute
    via Job Processor -> ack on success, fail(retry=true) on error".  The
    worker waits until the leased job is eligible; what the processor throws
    is kept in the job and goes no further.  The answer tells whether a job
    was run. *)
Definition worker_step : M bool :=
  w <- get_world ;;
  match geminiQueue w with
  | Some (BullQueue jobs _) =>
      match find_waiting jobs with
      | None => ret false
      | Some j =>
          modify (with_now (Z.max (now w) (available_at j))) ;;;
          set_jobs (update_job (job_id j) (set_state st_active)) ;;;
          outcome <- try_catch (processGeminiJob (data j) ;;; ret None)
                               (fun e => ret (Some e)) ;;
          match outcome with
          | None => set_jobs (update_job (job_id j) (set_state st_completed))
          | Some e => w' <- get_world ;; set_jobs (fail_job (now w') (job_id j) e)
          end ;;;
          ret true
      end
  | _ => ret false
  end.

(** The worker loop, for at most [n] turns. *)
Fixpoint worker_run (n : nat) : M unit :=
  match n with
  | O => ret tt
  | S n' => ran <- worker_step ;; if ran : bool then worker_run n' else ret tt
  end.

(** ** routes/chatroom.js: the chatroom-mutating handlers *)

(** What a handler reads of the request.  [params_id] is
    [parseInt(req.params.id)], [None] for [NaN]; a body field that is
    absent is [None]. *)
Record request := Request {
  req_user_id : Z;
  req_subscription_tier : string;
  params_id : option Z;
  body_title : option string;
  body_description : option string;
  body_content : option string
}.

(** [!s] for a string that may be undefined. *)
Definition is_falsy (s : option string) : bool :=
  match s with
  | None | Some EmptyString => true
  | Some _ => false
  end.

Fixpoint trim_start (s : string) : string :=
  match s with
  | String c s' => if Ascii.is_space c then trim_start s' else s
  | EmptyString => EmptyString
  end.

(** [s.trim()], on the white space of ASCII. *)
Definition trim (s : string) : string :=
  String.rev (trim_start (String.rev (trim_start s))).

(** [s?.trim() || null] *)
Definition trim_or_null (s : option string) : option string :=
  match s with
  | Some s' => match trim s' with EmptyString => None | t => Some t end
  | None => None
  end.

Definition js_opt_str (s : option string) : jsval :=
  match s with Some s' => JStr s' | None => JNull end.

Definition respond (code : Z) (body : jsval) : M unit := emit (EvRespond code body).

Definition validation_error (msg : string) : M unit :=
  respond 400 (js_object [("error", JStr "Validation Error"); ("message", JStr msg)]).

Definition not_found (msg : string) : M unit :=
  respond 404 (js_object [("error", JStr "Not Found"); ("message", JStr msg)]).

(** [INSERT INTO chatrooms (user_id, title, description) VALUES ($1, $2, $3)
     RETURNING id, title, description, created_at, updated_at] *)
Definition insert_chatroom (uid : Z) (title : string) (description : option string)
    : M chatroom :=
  pool_query (fun w =>
    let c := Chatroom (chatroom_seq w) uid title description (now w) (now w) in
    (Ok c, with_chatroom_seq (chatroom_seq w + 1)%Z (with_chatrooms (fun cs => cs ++ [c]) w))).

(** [SELECT id FROM chatrooms WHERE id = $1 AND user_id = $2] *)
Definition owned_by (i uid : Z) (c : chatroom) : Prop :=
  room_id c = i /\ room_user_id c = uid.

Global Instance owned_by_dec i uid c : Decision (owned_by i uid c).
Proof. unfold owned_by. apply _. Defined.

Definition select_chatroom (i uid : Z) : M (list Z) :=
  pool_query (fun w => (Ok (room_id <$> filter (owned_by i uid) (chatrooms w)), w)).

(** [UPDATE chatrooms SET title = $1, description = $2,
     updated_at = CURRENT_TIMESTAMP WHERE id = $3 AND user_id = $4
     RETURNING id, title, description, updated_at] *)
Definition update_chatroom (title : string) (description : option string) (i uid : Z)
    : M (list chatroom) :=
  pool_query (fun w =>
    let upd c :=
      if decide (owned_by i uid c)
      then Chatroom (room_id c) (room_user_id c) title description (room_created_at c) (now w)
      else c in
    let cs := upd <$> chatrooms w in
    (Ok (filter (owned_by i uid) cs), with_chatrooms (fun _ => cs) w)).

(** [UPDATE chatrooms SET updated_at = CURRENT_TIMESTAMP WHERE id = $1] *)
Definition touch_chatroom (i : Z) : M unit :=
  pool_query (fun w =>
    let upd c :=
      if decide (room_id c = i)
      then Chatroom (room_id c) (room_user_id c) (room_title c) (room_description c)
                    (room_created_at c) (now w)
      else c in
    (Ok tt, with_chatrooms (fmap upd) w)).

(** [DELETE FROM chatrooms WHERE id = $1 AND user_id = $2 RETURNING id];
    the messages of a deleted chatroom go with it ("via CASCADE"). *)
Definition delete_chatroom (i uid : Z) : M (list Z) :=
  pool_query (fun w =>
    match filter (owned_by i uid) (chatrooms w) with
    | [] => (Ok [], w)
    | hit =>
        (Ok (room_id <$> hit),
         with_messages (filter (fun m => msg_chatroom_id m ≠ i))
           (with_chatrooms (filter (fun c => ¬ owned_by i uid c)) w))
    end).

(** [INSERT INTO messages (chatroom_id, user_id, content, message_type,
     status) VALUES ($1, $2, $3, $4, $5) RETURNING id, content, created_at] *)
Definition insert_message (room uid : Z) (text : string) (ty : message_type) (s : status)
    : M message :=
  pool_query (fun w =>
    let m := Message (message_seq w) room uid text ty None s (now w) (now w) in
    (Ok m, with_message_seq (message_seq w + 1)%Z (with_messages (fun ms => ms ++ [m]) w))).

(** [UPDATE users SET daily_usage_count = daily_usage_count + 1 WHERE id = $1] *)
Definition increment_usage (uid : Z) : M unit :=
  pool_query (fun w => (Ok tt, with_usage (alter Z.succ uid) w)).

(** [router.post('/', ...)]: create a chatroom. *)
Definition post_chatroom (req : request) : M unit :=
  try_catch
    (let title := body_title req in
     let description := body_description req in
     let userId := req_user_id req in
     if is_falsy title || bool_decide (String.length (trim (default "" title)) = 0)%nat
     then validation_error "Title is required"
     else if bool_decide (200 < String.length (default "" title))%nat
     then validation_error "Title must be less than 200 characters"
     else
       chatroom <- insert_chatroom userId (trim (default "" title)) (trim_or_null description) ;;
       clearChatroomCache userId ;;;
       respond 201 (js_object [
         ("message", JStr "Chatroom created successfully");
         ("chatroom", js_object [
            ("id", JNum (room_id chatroom));
            ("title", JStr (room_title chatroom));
            ("description", js_opt_str (room_description chatroom));
            ("created_at", JNum (room_created_at chatroom));
            ("updated_at", JNum (room_updated_at chatroom));
            ("message_count", JNum 0)])]))
    (fun e => emit (EvNext e)).

(** [router.put('/:id', ...)]: update a chatroom. *)
Definition put_chatroom (req : request) : M unit :=
  try_catch
    (let userId := req_user_id req in
     let title := body_title req in
     let description := body_description req in
     match params_id req with
     | None => validation_error "Invalid chatroom ID"
     | Some chatroomId =>
         if is_falsy title || bool_decide (String.length (trim (default "" title)) = 0)%nat
         then validation_error "Title is required"
         else
           rows <- update_chatroom (trim (default "" title)) (trim_or_null description)
                     chatroomId userId ;;
           match rows with
           | [] => not_found "Chatroom not found"
           | chatroom :: _ =>
               clearChatroomCache userId ;;;
               respond 200 (js_object [
                 ("message", JStr "Chatroom updated successfully");
                 ("chatroom", js_object [
                    ("id", JNum (room_id chatroom));
                    ("title", JStr (room_title chatroom));
                    ("description", js_opt_str (room_description chatroom));
                    ("updated_at", JNum (room_updated_at chatroom))])])
           end
     end)
    (fun e => emit (EvNext e)).

(** [router.delete('/:id', ...)]: delete a chatroom. *)
Definition delete_chatroom_handler (req : request) : M unit :=
  try_catch
    (let userId := req_user_id req in
     match params_id req with
     | None => validation_error "Invalid chatroom ID"
     | Some chatroomId =>
         rows <- delete_chatroom chatroomId userId ;;
         match rows with
         | [] => not_found "Chatroom not found"
         | _ :: _ =>
             clearChatroomCache userId ;;;
             respond 200 (js_object [("message", JStr "Chatroom deleted successfully")])
         end
     end)
    (fun e => emit (EvNext e)).

(** [router.post('/:id/message', ...)]: send a message. *)
Definition post_message (req : request) : M unit :=
  try_catch
    (let userId := req_user_id req in
     let content := body_content req in
     match params_id req with
     | None => validation_error "Invalid chatroom ID"
     | Some chatroomId =>
         if is_falsy content || bool_decide (String.length (trim (default "" content)) = 0)%nat
         then validation_error "Message content is required"
         else
           chatroomResult <- select_chatroom chatroomId userId ;;
           match chatroomResult with
           | [] => not_found "Chatroom not found"
           | _ :: _ =>
               userMessage <- insert_message chatroomId userId (trim (default "" content))
                                user completed ;;
               aiMessage <- insert_message chatroomId userId "Processing your request..."
                              ai pending ;;
               let aiMessageId := msg_id aiMessage in
               addGeminiJob (JobData aiMessageId chatroomId userId (trim (default "" content))) ;;;
               touch_chatroom chatroomId ;;;
               clearChatroomCache userId ;;;
               respond 201 (js_object [
                 ("message", JStr "Message sent successfully");
                 ("user_message", js_object [
                    ("id", JNum (msg_id userMessage));
                    ("content", JStr (msg_content userMessage));
                    ("message_type", JStr "user");
                    ("created_at", JNum (msg_created_at userMessage))]);
                 ("ai_message", js_object [
                    ("id", JNum aiMessageId);
                    ("content", JStr "Processing your request...");
                    ("message_type", JStr "ai");
                    ("status", JStr "pending")])]) ;;;
               if decide (req_subscription_tier req = "basic")
               then increment_usage userId
               else ret tt
           end
     end)
    (fun e => emit (EvNext e)).

(** The four operations that change what the chatroom list shows. *)
Inductive mutation := CreateChatroom | UpdateChatroom | DeleteChatroom | SendMessage.

Definition handler (op : mutation) : request -> M unit :=
  match op with
  | CreateChatroom => post_chatroom
  | UpdateChatroom => put_chatroom
  | DeleteChatroom => delete_chatroom_handler
  | SendMessage => post_message
  end.

(** ** Vocabulary of the statements *)

(** The store answers the next [n] queries. *)
Definition store_answers (n : nat) (w : world) : Prop :=
  Forall (fun rejected => rejected = false) (take n (pool_faults w)).

(** The Redis backend answers the next [n] commands. *)
Definition redis_answers (n : nat) (w : world) : Prop :=
  Forall (fun rejected => rejected = false) (take n (redis_faults w)).

(** The chatroom-list cache cannot serve the next command. *)
Definition cache_down (w : world) : Prop :=
  redis w = None \/ head (redis_faults w) = Some true.

(** What [generateResponse] resolves to for a history: the text of the
    collaborator, or the apology when the collaborator throws. *)
Definition reply (w : world) (userMessage : string) (rows : list history_row) : string :=
  match generateContent w (build_prompt userMessage rows) with
  | Ok text => text
  | Throw _ => apology
  end.

(** [historyResult.rows.reverse()], before the projection. *)
Definition context_of (room : Z) (ms : list message) : list message :=
  reverse (recent_completed room ms).

(** The messages behind the history [generateResponseWithContext] hands to
    [generateResponse]: none when the history query is rejected. *)
Definition assembled_context (room : Z) (w : world) : list message :=
  match pool_faults w with
  | true :: _ => []
  | _ => context_of room (messages w)
  end.

(** Chronological order. *)
Definition older_first (a b : message) : Prop := (msg_created_at a <= msg_created_at b)%Z.

(** The message [i] put in status [s] with text [text], response [r] and
    time of update [u]: the row as some earlier run may have left it. *)
Definition rewrite_message (s : status) (text : string) (r : option string) (u : Z) (i : Z)
    (m : message) : message :=
  if decide (msg_id m = i)
  then Message (msg_id m) (msg_chatroom_id m) (msg_user_id m) text (msg_message_type m) r s
               (msg_created_at m) u
  else m.

(** The state of a message in the sense of the data model: its status and
    its response text. *)
Definition message_view (m : message) : Z * status * string * option string :=
  (msg_id m, msg_status m, msg_content m, msg_gemini_response m).

Definition with_jobs (f : list job -> list job) (w : world) : world :=
  exec (set_jobs f) w.

(** What [post_message] has done when it calls [addGeminiJob]: the chatroom
    was looked up and the two rows were inserted. *)
Definition submitted (room uid : Z) (text : string) : M unit :=
  select_chatroom room uid ;;;
  insert_message room uid text user completed ;;;
  insert_message room uid "Processing your request..." ai pending ;;;
  ret tt.

(** The statistics of a list of jobs. *)
Definition count_jobs (jobs : list job) : Stats.t :=
  let n s := length (filter (fun j => state j = s) jobs) in
  Stats.Make (n st_waiting) (n st_active) (n st_completed) (n st_failed)
    (n st_waiting + n st_active + n st_completed + n st_failed).

Definition no_stats : Stats.t := Stats.Make 0 0 0 0 0.

(** A response that tells the caller of success. *)
Definition is_success (e : event) : Prop :=
  match e with
  | EvRespond code _ => (200 <= code < 300)%Z
  | _ => False
  end.

(** In a list of events, most recent first: every success response comes
    after the invalidation of the user's key, and after a [del] of that key
    when the cache is up. *)
Fixpoint ordered (uid : Z) (cache_up : Prop) (es : list event) : Prop :=
  match es with
  | [] => True
  | e :: earlier =>
      (is_success e ->
         EvInvalidate uid ∈ earlier /\
         (cache_up -> exists ok, EvRedisDel (chatroom_key uid) ok ∈ earlier)) /\
      ordered uid cache_up earlier
  end.

(** A computation that emits no event and leaves the cache alone. *)
Definition quiet {A} (m : M A) : Prop :=
  forall w, events (exec m w) = events w /\ redis (exec m w) = redis w.

(** ** Worlds of the examples *)

(** Chatroom 7 of user 1 with the user's message 41 and the placeholder 42
    of the AI; the collaborator answers "Hello"; the mock queue is in place. *)
Definition w42 : world :=
  World [Message 42 7 1 "Processing your request..." ai None pending 5 5;
         Message 41 7 1 "Hi" user None completed 4 4]
        [Chatroom 7 1 "room" None 0 0] ∅ 43 8 1000 [] (Some ∅) [] (Some MockQueue)
        (fun _ => Ok "Hello") [].

Definition d42 : job_data := JobData 42 7 1 "Hi".


(** Message 42 was completed with "Hello"; the collaborator now answers "Bye". *)
Definition w_done : world :=
  World [Message 42 7 1 "Hello" ai (Some "Hello") completed 5 900;
         Message 41 7 1 "Hi" user None completed 4 4]
        [Chatroom 7 1 "room" None 0 0] ∅ 43 8 1000 [] (Some ∅) [] (Some MockQueue)
        (fun _ => Ok "Bye") [].

(** Message 42 had failed; the collaborator now answers "Bye". *)
Definition w_failed : world :=
  with_messages (fmap (rewrite_message failed fallback_text None 900 42)) w_done.

(** The store rejects one query, the first. *)
Definition w_flaky : world := with_pool_faults [true] w42.

(** User 1 sends "Hi" to chatroom 7. *)
Definition req_hi : request := Request 1 "basic" (Some 7%Z) None None (Some "Hi").

(** The store rejects the fourth query: the first of the job body when the
    job runs inside the request. *)
Definition w_fourth : world := with_pool_faults [false; false; false; true] w42.

(** User 1 creates a chatroom. *)
Definition req_create : request := Request 1 "basic" None (Some "Plans") None None.

(** The body of the response to [req_create] in [w42]. *)
Definition created_body : jsval :=
  js_object [
    ("message", JStr "Chatroom created successfully");
    ("chatroom", js_object [
       ("id", JNum 8); ("title", JStr "Plans"); ("description", JNull);
       ("created_at", JNum 1000); ("updated_at", JNum 1000);
       ("message_count", JNum 0)])].

(** A durable queue with one job in each state. *)
Definition w_jobs : world :=
  with_geminiQueue
    (Some (BullQueue [Job "1" d42 st_completed 0 0 None;
                      Job "2" d42 st_failed 3 0 (Some StoreError);
                      Job "3" d42 st_active 0 0 None;
                      Job "4" d42 st_waiting 0 0 None] 4)) w42.

Arguments build_prompt : simpl never.
Arguments recent_completed : simpl never.
Arguments addGeminiJob : simpl never.
Arguments processGeminiJob : simpl never.


(** * The rest of the modules *)

(** ** services/cacheService.js: the other entries *)

(** [`session:user:${userId}`] and [`usage:daily:${userId}`] *)
Definition session_key (userId : Z) : string := "session:user:" +:+ pretty userId.
Definition usage_key (userId : Z) : string := "usage:daily:" +:+ pretty userId.

(** What a [get] of key [k] at time [t] finds in the key space [r]. *)
Definition live (t : Z) (r : gmap string (string * Z)) (k : string) : option string :=
  match r !! k with
  | Some (v, expires) => if decide (t < expires)%Z then Some v else None
  | None => None
  end.

(** [redis.keys(prefix + '*')]: the keys that start with [prefix] and have
    not expired. *)
Definition redis_keys (prefix : string) : M (list string) :=
  redis_command (fun r t =>
    (filter (fun k => String.prefix prefix k = true /\ is_Some (live t r k)) (map_to_list r).*1,
     r)).

(** [redis.del(...keys)]: one command for all the keys. *)
Definition redis_del_all (keys : list string) : M Z :=
  try_catch
    (n <- redis_command (fun r t =>
            (Z.of_nat (length (filter (fun k => is_Some (r !! k)) keys)),
             foldr delete r keys)) ;;
     modify (fun w => with_events (((fun k => EvRedisDel k true) <$> reverse keys) ++ events w) w) ;;;
     ret n)
    (fun e =>
       modify (fun w => with_events (((fun k => EvRedisDel k false) <$> reverse keys) ++ events w) w) ;;;
       throw e).

Definition clearAllChatroomCache : M unit :=
  try_catch
    (getRedis ;;;
     keys <- redis_keys CHATROOM_CACHE_KEY ;;
     if decide (0 < length keys)%nat
     then redis_del_all keys ;;; ret tt
     else ret tt)
    (fun _ => ret tt).

Section cache_entries.
Variable JSON_parse : string -> option jsval.
Variable JSON_stringify : jsval -> string.

Definition getCachedUserSession (userId : Z) : M jsval :=
  try_catch
    (getRedis ;;;
     let key := session_key userId in
     cachedData <- redis_get key ;;
     match cachedData with
     | Some (String c s) =>
         match JSON_parse (String c s) with
         | Some v => ret v
         | None => throw SyntaxError
         end
     | Some EmptyString | None => ret JNull
     end)
    (fun _ => ret JNull).

(** [ttl = 3600] when the caller gives none. *)
Definition setCachedUserSession (userId : Z) (sessionData : jsval) (ttl : option Z) : M unit :=
  try_catch
    (getRedis ;;;
     let key := session_key userId in
     redis_setex key (default 3600%Z ttl) (JSON_stringify sessionData))
    (fun _ => ret tt).

Definition getCachedDailyUsage (userId : Z) : M jsval :=
  try_catch
    (getRedis ;;;
     let key := usage_key userId in
     cachedData <- redis_get key ;;
     match cachedData with
     | Some (String c s) =>
         match JSON_parse (String c s) with
         | Some v => ret v
         | None => throw SyntaxError
         end
     | Some EmptyString | None => ret JNull
     end)
    (fun _ => ret JNull).

(** [ttl = 86400] when the caller gives none. *)
Definition setCachedDailyUsage (userId : Z) (usageData : jsval) (ttl : option Z) : M unit :=
  try_catch
    (getRedis ;;;
     let key := usage_key userId in
     redis_setex key (default 86400%Z ttl) (JSON_stringify usageData))
    (fun _ => ret tt).
End cache_entries.

Definition clearUserSessionCache (userId : Z) : M unit :=
  try_catch
    (getRedis ;;;
     let key := session_key userId in
     redis_del key ;;;
     ret tt)
    (fun _ => ret tt).

(** ** routes/chatroom.js: the reading handlers *)

(** Whether a value counts as true in a condition. *)
Definition js_truthy (v : jsval) : bool :=
  match v with
  | JNull => false
  | JBool b => b
  | JNum n => negb (n =? 0)%Z
  | JStr s => negb (bool_decide (s = ""))
  | JArr _ | JObj _ => true
  end.

(** The messages joined to a chatroom: [m.chatroom_id = c.id]. *)
Definition room_messages (i : Z) (ms : list message) : list message :=
  filter (fun m => msg_chatroom_id m = i) ms.

(** [MAX(m.created_at)], [NULL] over no row. *)
Definition max_created_at (ms : list message) : option Z :=
  match ms with
  | [] => None
  | m :: ms' => Some (foldr Z.max (msg_created_at m) (msg_created_at <$> ms'))
  end.

(** A row of the list query: the chatroom, [COUNT(m.id)] and
    [MAX(m.created_at)]. *)
Record chatroom_row := ChatroomRow {
  row_chatroom : chatroom;
  row_message_count : nat;
  row_last_message_at : option Z
}.

(** [ORDER BY c.updated_at DESC] *)
Definition recently_updated_first (a b : chatroom) : Prop :=
  (room_updated_at b <= room_updated_at a)%Z.

Global Instance recently_updated_first_dec a b : Decision (recently_updated_first a b).
Proof. unfold recently_updated_first. apply _. Defined.

Definition chatroom_row_of (ms : list message) (c : chatroom) : chatroom_row :=
  ChatroomRow c (length (room_messages (room_id c) ms))
              (max_created_at (room_messages (room_id c) ms)).

(** [SELECT c.id, c.title, c.description, c.created_at, c.updated_at,
     COUNT(m.id) as message_count, MAX(m.created_at) as last_message_at
     FROM chatrooms c LEFT JOIN messages m ON c.id = m.chatroom_id
     WHERE c.user_id = $1 GROUP BY c.id, ... ORDER BY c.updated_at DESC] *)
Definition chatroom_list (uid : Z) (cs : list chatroom) (ms : list message) : list chatroom_row :=
  chatroom_row_of ms <$>
    merge_sort recently_updated_first (filter (fun c => room_user_id c = uid) cs).


Definition js_opt_num (n : option Z) : jsval :=
  match n with Some n' => JNum n' | None => JNull end.

(** The object built for a row in [result.rows.map]. *)
Definition chatroom_json (row : chatroom_row) : jsval :=
  js_object [
    ("id", JNum (room_id (row_chatroom row)));
    ("title", JStr (room_title (row_chatroom row)));
    ("description", js_opt_str (room_description (row_chatroom row)));
    ("created_at", JNum (room_created_at (row_chatroom row)));
    ("updated_at", JNum (room_updated_at (row_chatroom row)));
    ("message_count", JNum (Z.of_nat (row_message_count row)));
    ("last_message_at", js_opt_num (row_last_message_at row))].


(** [SELECT id, content, message_type, gemini_response, status, created_at
     FROM messages WHERE chatroom_id = $1 ORDER BY created_at DESC LIMIT 50] *)
Definition recent_messages (i : Z) (ms : list message) : list message :=
  take 50 (merge_sort newer_first (room_messages i ms)).







Section chatroom_list_handler.
Variable JSON_parse : string -> option jsval.
Variable JSON_stringify : jsval -> string.

End chatroom_list_handler.

(** ** services/geminiService.js: the other calls of the model *)

(** The double quote of the template strings. *)
Definition dq : string := String (Ascii.ascii_of_nat 34) EmptyString.

Definition lower_ascii (c : Ascii.ascii) : Ascii.ascii :=
  let n := Ascii.nat_of_ascii c in
  if (65 <=? n)%nat && (n <=? 90)%nat then Ascii.ascii_of_nat (n + 32) else c.

(** [s.toLowerCase()], on the letters of ASCII. *)
Fixpoint toLowerCase (s : string) : string :=
  match s with
  | EmptyString => EmptyString
  | String c s' => String (lower_ascii c) (toLowerCase s')
  end.

Definition sentiment_prompt (message : string) : string :=
  "Analyze the sentiment of this message and respond with only one word: positive, negative, or neutral."
    +:+ nl +:+ "    " +:+ nl +:+ "    Message: " +:+ dq +:+ message +:+ dq.

Definition analyzeSentiment (message : string) : M string :=
  try_catch
    (text <- call_model (sentiment_prompt message) ;;
     let sentiment := toLowerCase (trim text) in
     ret sentiment)
    (fun _ => ret "neutral").

Definition summary_prompt (messages : list history_row) : string :=
  "Please provide a brief summary of this conversation in 2-3 sentences:"
    +:+ nl +:+ nl +:+ "    " +:+ String.concat nl (history_line <$> messages).

Definition summarizeConversation (messages : list history_row) : M string :=
  try_catch
    (summary <- call_model (summary_prompt messages) ;;
     ret summary)
    (fun _ => ret "Unable to generate summary at this time.").

Definition title_prompt (firstMessage : string) : string :=
  "Generate a short, descriptive title (maximum 50 characters) for a chatroom based on this first message. Only respond with the title, no additional text:"
    +:+ nl +:+ nl +:+ "    " +:+ dq +:+ firstMessage +:+ dq.

Definition generateChatroomTitle (firstMessage : string) : M string :=
  try_catch
    (text <- call_model (title_prompt firstMessage) ;;
     let title := trim text in
     ret (if decide (50 < String.length title)%nat
          then String.substring 0 50 title +:+ "..."
          else title))
    (fun _ => ret "New Conversation").

(** ** The retry strategies of the connections *)

(** jobs/geminiQueue.js: [(times) => Math.min(times * 100, 3000)] *)
Definition queue_retryStrategy (times : Z) : Z := Z.min (times * 100) 3000.

(** config/redis.js: [(times) => times > 3 ? null : Math.min(times * 50, 2000)] *)
Definition redis_retryStrategy (times : Z) : option Z :=
  if decide (3 < times)%Z then None else Some (Z.min (times * 50) 2000).

(** ** middleware/rateLimiter.js *)

(** What [req.user.last_usage_reset] holds.  [authenticateToken] puts the
    row of [users] into [req.user], and node-postgres hands the DATE column
    over as a [Date] object, or [null]; a string is there only once the
    rate limiter has assigned one. *)
Inductive usage_reset :=
| ResetDate (t : Z)          (* a Date object *)
| ResetNull                  (* null *)
| ResetDay (day : string).   (* 'YYYY-MM-DD' *)

(** [v !== today] for the string [today]: strict inequality holds for
    every value that is not that string. *)
Definition differs_from (v : usage_reset) (today : string) : Prop :=
  match v with
  | ResetDay day => day <> today
  | ResetDate _ | ResetNull => True
  end.

Global Instance differs_from_dec v today : Decision (differs_from v today).
Proof. destruct v; simpl; apply _. Defined.

(** [req.user], as the authentication left it. *)
Record auth_user := AuthUser {
  au_id : Z;
  au_subscription_tier : string;
  au_daily_usage_count : Z;
  au_last_usage_reset : usage_reset
}.

(** The user is as [authenticateToken] loads it: [last_usage_reset] is the
    value of the column, not a string. *)
Definition from_row (u : auth_user) : Prop :=
  match au_last_usage_reset u with
  | ResetDay _ => False
  | ResetDate _ | ResetNull => True
  end.

(** How a middleware ends: it calls [next()], with [req.user] as it is
    then, or it has answered the request itself. *)
Inductive passage :=
| Passed (u : option auth_user)
| Answered.

(** [UPDATE users SET daily_usage_count = 0, last_usage_reset = $1
     WHERE id = $2]; of the table [users] the world keeps the counts. *)
Definition reset_usage (today : string) (uid : Z) : M unit :=
  pool_query (fun w => (Ok tt, with_usage (alter (fun _ => 0%Z) uid) w)).

Definition limit_exceeded (u : auth_user) : jsval :=
  js_object [
    ("error", JStr "Daily usage limit exceeded");
    ("message", JStr "Basic tier users are limited to 5 prompts per day. Please upgrade to Pro for unlimited usage.");
    ("dailyUsageCount", JNum (au_daily_usage_count u));
    ("limit", JNum 5);
    ("tier", JStr "basic")].

Section rate_limiter.
(** [new Date(t).toISOString().split('T')[0]]: the day of an instant. *)
Variable iso_date : Z -> string.

Definition rateLimiter (user : option auth_user) : M passage :=
  try_catch
    (match user with
     | None =>
         respond 401 (js_object [("error", JStr "Authentication required")]) ;;;
         ret Answered
     | Some u =>
         w <- get_world ;;
         let today := iso_date (now w) in
         if decide (au_subscription_tier u = "basic")
         then
           u' <- (if decide (differs_from (au_last_usage_reset u) today)
                  then reset_usage today (au_id u) ;;;
                       ret (AuthUser (au_id u) (au_subscription_tier u) 0 (ResetDay today))
                  else ret u) ;;
           if decide (5 <= au_daily_usage_count u')%Z
           then respond 429 (limit_exceeded u') ;;; ret Answered
           else ret (Passed (Some u'))
         else ret (Passed (Some u))
     end)
    (fun _ =>
       respond 500 (js_object [("error", JStr "Internal server error")]) ;;;
       ret Answered).

(** [incrementUsage]: the count of a basic user goes up; the chain goes
    on whatever happens. *)
Definition incrementUsage (user : option auth_user) : M passage :=
  try_catch
    (match user with
     | None => ret (Passed user)
     | Some u =>
         (if decide (au_subscription_tier u = "basic")
          then increment_usage (au_id u)
          else ret tt) ;;;
         ret (Passed user)
     end)
    (fun _ => ret (Passed user)).

(** [router.post('/:id/message', authenticateToken, rateLimiter, ...)]
    from the rate limiter on: the handler runs when the limiter calls
    [next()]. *)
Definition message_route (user : option auth_user) (id : option Z) (content : option string)
    : M unit :=
  p <- rateLimiter user ;;
  match p with
  | Passed (Some u) =>
      post_message (Request (au_id u) (au_subscription_tier u) id None None content)
  | Passed None | Answered => ret tt
  end.
End rate_limiter.

(** ** middleware/errorHandler.js *)

(** The error object [next(error)] hands on, as far as the handler reads
    it; a property that is absent is [None]. *)
Record js_error := JsError {
  err_name : option string;
  err_message : option string;
  err_code : option string;
  err_type : option string;
  err_statusCode : option Z;
  err_status : option Z;
  err_details : option jsval;
  err_stack : option string
}.

(** An object literal some of whose values may be [undefined]: such a
    property does not reach the JSON text of the response. *)
Definition js_defined (props : list (string * option jsval)) : jsval :=
  js_object (omap (fun kv => pair kv.1 <$> kv.2) props).

(** [a || b] on strings and on numbers that may be undefined. *)
Definition str_or (a : option string) (b : string) : string :=
  match a with Some (String c s) => String c s | _ => b end.

Definition num_or (a : option Z) (b : Z) : Z :=
  match a with Some n => if decide (n = 0)%Z then b else n | None => b end.

(** [res.status(code).json(body)] in the error handler, which has no
    [res.headersSent] guard.  [headersSent] tells whether the response of
    the request was sent before [next(error)] was called: Express then
    throws ERR_HTTP_HEADERS_SENT out of [res.json] and sends nothing. *)
Definition send (headersSent : bool) (code : Z) (body : jsval) : M unit :=
  if headersSent then throw HeadersSent else respond code body.

Definition errorHandler (development headersSent : bool) (error : js_error) : M unit :=
  if decide (err_name error = Some "ValidationError")
  then send headersSent 400 (js_defined [
         ("error", Some (JStr "Validation Error"));
         ("message", JStr <$> err_message error);
         ("details", Some (match err_details error with
                           | Some d => if js_truthy d then d else JNull
                           | None => JNull
                           end))])
  else if decide (err_name error = Some "JsonWebTokenError")
  then send headersSent 401 (js_object [("error", JStr "Authentication Error");
                                          ("message", JStr "Invalid token")])
  else if decide (err_name error = Some "TokenExpiredError")
  then send headersSent 401 (js_object [("error", JStr "Authentication Error");
                                          ("message", JStr "Token expired")])
  else if decide (err_code error = Some "23505")
  then send headersSent 409 (js_object [("error", JStr "Conflict");
                                          ("message", JStr "Resource already exists")])
  else if decide (err_code error = Some "23503")
  then send headersSent 400 (js_object [("error", JStr "Bad Request");
                                          ("message", JStr "Referenced resource does not exist")])
  else if String.prefix "Stripe" (default "" (err_type error))
  then send headersSent 400 (js_defined [("error", Some (JStr "Payment Error"));
                                           ("message", JStr <$> err_message error)])
  else
    let statusCode := num_or (err_statusCode error) (num_or (err_status error) 500) in
    let message := str_or (err_message error) "Internal Server Error" in
    send headersSent statusCode (js_defined (
      [("error", Some (JStr (if decide (statusCode = 500)%Z then "Internal Server Error"
                             else str_or (err_name error) "Error")));
       ("message", Some (JStr (if decide (statusCode = 500)%Z then "Something went wrong"
                               else message)))]
      ++ (if development then [("stack", JStr <$> err_stack error)] else []))).

(** ** Texts of ASCII characters *)

(** Strings are sequences of bytes here.  On a text of ASCII characters a
    byte is a UTF-16 code unit, and the white space and the capital
    letters of JavaScript are those of ASCII, so that [String.length],
    [String.substring], [trim] and [toLowerCase] are [length],
    [substring], [trim] and [toLowerCase] of JavaScript.  On other texts
    they are not; what is stated of a result of these functions is stated
    of ASCII texts. *)
Fixpoint ascii_only (s : string) : bool :=
  match s with
  | EmptyString => true
  | String c s' => (Ascii.nat_of_ascii c <? 128)%nat && ascii_only s'
  end.

(** ** Vocabulary of the further statements *)

(** A computation that emits nothing and leaves Redis alone. *)
Definition still {A} (m : M A) : Prop :=
  forall w, events (exec m w) = events w /\ redis (exec m w) = redis w /\
            redis_faults (exec m w) = redis_faults w.

(** What a mutation by [uid] leaves of the cache [r]: nothing changed and
    no success response, or the key of the user deleted, and then one
    response, sent after the [del] was answered. *)
Definition cache_after (uid : Z) (r : gmap string (string * Z)) (w w' : world) : Prop :=
  exists new, events w' = new ++ events w /\
    ((redis w' = Some r /\ forall e, e ∈ new -> ~ is_success e) \/
     (redis w' = Some (delete (chatroom_key uid) r) /\
      exists later code body,
        new = later ++ [EvRespond code body; EvRedisDel (chatroom_key uid) true;
                        EvInvalidate uid] /\
        forall e, e ∈ later -> ~ is_success e)).

(** The messages [GET /chatroom/:id] shows: the rows of the query, reversed. *)
Definition shown_messages (i : Z) (ms : list message) : list message :=
  reverse (recent_messages i ms).

Arguments chatroom_list : simpl never.
Arguments recent_messages : simpl never.

(** * Properties *)

Ltac unfold_async :=
  unfold processGeminiJob, generateResponseWithContext, generateResponse, call_model,
    update_message_status, update_message_response, update_message_failed,
    select_history, pool_query, bind, try_catch, ret, throw, exec, eval in *.

(** ** The conversation context *)

Global Instance newer_first_trans : Transitive newer_first.
Proof. unfold newer_first. intros a b c. lia. Qed.

Global Instance newer_first_total : Total newer_first.
Proof. unfold newer_first. intros a b. lia. Qed.

Lemma StronglySorted_reverse {A} (R : relation A) (l : list A) :
  StronglySorted R l -> StronglySorted (flip R) (reverse l).
Proof.
  induction 1 as [|x l Hl IH Hx]; [constructor|].
  rewrite reverse_cons. apply StronglySorted_app_2; [|done|repeat constructor].
  intros a b Ha Hb. apply list_elem_of_singleton in Hb as ->.
  rewrite elem_of_reverse in Ha. rewrite Forall_forall in Hx. by apply Hx.
Qed.

Lemma sorted_completed room (ms : list message) :
  StronglySorted newer_first (merge_sort newer_first (filter (completed_in room) ms)).
Proof. apply StronglySorted_merge_sort; apply _. Qed.

Lemma elem_of_sorted_completed room (ms : list message) m :
  m ∈ merge_sort newer_first (filter (completed_in room) ms) <->
  m ∈ ms /\ completed_in room m.
Proof. rewrite merge_sort_Permutation, list_elem_of_filter. tauto. Qed.

Lemma elem_of_context_of room (ms : list message) m :
  m ∈ context_of room ms -> m ∈ ms /\ completed_in room m.
Proof.
  unfold context_of, recent_completed. rewrite elem_of_reverse.
  intros H. apply elem_of_take in H as (i & H & _).
  apply list_elem_of_lookup_2 in H. by apply elem_of_sorted_completed.
Qed.

Lemma length_context_of room (ms : list message) :
  length (context_of room ms) = (length (filter (completed_in room) ms) `min` 10)%nat.
Proof.
  unfold context_of, recent_completed.
  rewrite length_reverse, length_take, merge_sort_Permutation. lia.
Qed.

Lemma context_of_chronological room (ms : list message) :
  StronglySorted older_first (context_of room ms).
Proof.
  unfold context_of, recent_completed.
  apply (StronglySorted_reverse newer_first).
  pose proof (sorted_completed room ms) as Hs.
  rewrite <- (take_drop 10 (merge_sort _ _)) in Hs. by apply StronglySorted_app_1_l in Hs.
Qed.

Lemma context_of_latest room (ms : list message) m m' :
  m ∈ context_of room ms -> m' ∈ ms -> completed_in room m' -> m' ∉ context_of room ms ->
  (msg_created_at m' <= msg_created_at m)%Z.
Proof.
  unfold context_of, recent_completed. rewrite !elem_of_reverse.
  intros Hm Hm' Hc Hn.
  pose proof (sorted_completed room ms) as Hs.
  assert (Hin : m' ∈ merge_sort newer_first (filter (completed_in room) ms))
    by (by apply elem_of_sorted_completed).
  rewrite <- (take_drop 10 (merge_sort _ _)) in Hin, Hs.
  apply elem_of_app in Hin as [Hin|Hin]; [done|].
  apply (StronglySorted_app_1_elem_of _ _ _ m m' Hs Hm Hin).
Qed.

Lemma generateResponseWithContext_context um room w :
  generateResponseWithContext um room w
    = generateResponse um (history_of <$> assembled_context room w)
        (with_pool_faults (tail (pool_faults w)) w).
Proof.
  destruct w as [ms cs us mseq cseq t pf r rf q g es].
  destruct pf as [|[] pf]; unfold assembled_context, context_of; simpl;
    rewrite ?fmap_reverse; unfold_async; simpl; by destruct (g _).
Qed.

(** C8. The history that [generateResponseWithContext] hands to the
    generation call is made of at most 10 messages, all of them completed
    messages of the chatroom, oldest first; when the history query is
    answered they are the latest such messages: every other completed
    message of the chatroom is no younger than any of them. *)
Theorem context_window um room w :
  let ctx := assembled_context room w in
  generateResponseWithContext um room w
    = generateResponse um (history_of <$> ctx) (with_pool_faults (tail (pool_faults w)) w) /\
  (length ctx <= 10)%nat /\
  (forall m, m ∈ ctx ->
     m ∈ messages w /\ msg_chatroom_id m = room /\ msg_status m = completed) /\
  StronglySorted older_first ctx /\
  (store_answers 1 w ->
     length ctx = (length (filter (completed_in room) (messages w)) `min` 10)%nat /\
     forall m m', m ∈ ctx -> m' ∈ messages w -> completed_in room m' -> m' ∉ ctx ->
       (msg_created_at m' <= msg_created_at m)%Z).
Proof.
  cbv zeta. split; [apply generateResponseWithContext_context|].
  unfold assembled_context, store_answers.
  destruct (pool_faults w) as [|[] pf].
  - split; [rewrite length_context_of; lia|].
    split; [intros m Hm; by apply elem_of_context_of in Hm as [? [? ?]]|].
    split; [apply context_of_chronological|].
    intros _. split; [apply length_context_of|apply context_of_latest].
  - split; [simpl; lia|]. split; [by intros m Hm; apply elem_of_nil in Hm|].
    split; [constructor|]. simpl. intros H. by decompose_Forall.
  - split; [rewrite length_context_of; lia|].
    split; [intros m Hm; by apply elem_of_context_of in Hm as [? [? ?]]|].
    split; [apply context_of_chronological|].
    intros _. split; [apply length_context_of|apply context_of_latest].
Qed.

(** Twelve completed messages and one pending one in chatroom 7, and a
    completed one elsewhere. *)
Example context_window_of_twelve :
  msg_id <$> context_of 7
    (((fun i => Message i 7 1 "m" user None completed i i) <$> seqZ 1 12)
       ++ [Message 13 7 1 "p" ai None pending 13 13; Message 14 8 1 "o" user None completed 14 14])
  = seqZ 3 10.
Proof. vm_compute. reflexivity. Qed.

Lemma context_window_witness :
  (length (assembled_context 7 w42) <= 10)%nat /\
  StronglySorted older_first (assembled_context 7 w42).
Proof.
  destruct (context_window "Hi" 7 w42) as (_ & Hl & _ & Hs & _). by split.
Defined.

(** ** The job processor *)

(** A run whose three queries are answered: the message is set to
    processing, the reply is generated from the context, and the reply is
    written with status completed. *)
Lemma processGeminiJob_answered w d :
  store_answers 3 w ->
  let ms := set_status processing (messageId d) <$> messages w in
  let text := reply w (userMessage d) (history_of <$> context_of (chatroomId d) ms) in
  processGeminiJob d w =
    (Ok (JobResult true (messageId d) text),
     with_pool_faults (drop 3 (pool_faults w))
       (with_messages (fun _ => set_response text text completed (now w) (messageId d) <$> ms) w)).
Proof.
  unfold store_answers, reply, context_of. rewrite fmap_reverse.
  destruct w as [ms cs us mseq cseq t pf r rf q g es]; simpl.
  intros H.
  destruct pf as [|[] [|[] [|[] pf]]]; simpl in H; decompose_Forall; try discriminate;
    unfold_async; simpl;
    destruct (g _); reflexivity.
Qed.

(** The processor touches the table of messages and consumes the schedule
    of the store; it leaves the rest of the world alone. *)
Lemma processGeminiJob_frame d w :
  let w' := exec (processGeminiJob d) w in
  events w' = events w /\ geminiQueue w' = geminiQueue w /\ now w' = now w /\
  redis w' = redis w /\ redis_faults w' = redis_faults w /\ chatrooms w' = chatrooms w /\
  generateContent w' = generateContent w.
Proof.
  destruct w as [ms cs us mseq cseq t pf r rf q g es].
  destruct pf as [|[] [|[] [|[] [|[] pf]]]]; unfold_async; simpl;
    repeat match goal with |- context [g ?p] => destruct (g p) end;
    simpl; repeat split; reflexivity.
Qed.

Lemma set_response_set_status r t s s' time i m :
  set_response r t s time i (set_status s' i m) = set_response r t s time i m.
Proof.
  unfold set_response, set_status. destruct m; simpl.
  repeat (case_decide; simpl in * ); congruence.
Qed.

Lemma set_response_target r t s time i m :
  msg_id (set_response r t s time i m) = msg_id m /\
  (msg_id m = i ->
     msg_status (set_response r t s time i m) = s /\
     msg_content (set_response r t s time i m) = t /\
     msg_gemini_response (set_response r t s time i m) = Some r) /\
  (msg_id m <> i -> set_response r t s time i m = m).
Proof. unfold set_response. case_decide; simpl; intuition. Qed.



(** What a run with answered queries leaves: the text [T] it generated, in
    every row of the target message. *)
Lemma processGeminiJob_run w d :
  store_answers 3 w ->
  exists T,
    T = reply w (userMessage d)
          (history_of <$> context_of (chatroomId d)
                            (set_status processing (messageId d) <$> messages w)) /\
    eval (processGeminiJob d) w = Ok (JobResult true (messageId d) T) /\
    messages (exec (processGeminiJob d) w)
      = set_response T T completed (now w) (messageId d) <$> messages w /\
    (forall m, m ∈ messages (exec (processGeminiJob d) w) -> msg_id m = messageId d ->
       msg_status m = completed /\ msg_content m = T /\ msg_gemini_response m = Some T).
Proof.
  intros Hs. eexists. split; [reflexivity|]. unfold eval, exec.
  rewrite (processGeminiJob_answered w d Hs). simpl.
  set (T := reply w _ _).
  assert (He : set_response T T completed (now w) (messageId d) <$>
                 (set_status processing (messageId d) <$> messages w)
               = set_response T T completed (now w) (messageId d) <$> messages w).
  { rewrite <- list_fmap_compose. apply list_fmap_ext. intros ? m _. simpl.
    apply set_response_set_status. }
  rewrite He. split; [done|]. split; [done|].
  intros m Hm Hi. apply list_elem_of_fmap in Hm as (m0 & -> & Hm0).
  destruct (set_response_target T T completed (now w) (messageId d) m0) as (Hid & Ht & _).
  rewrite Hid in Hi. by apply Ht.
Qed.


(** C3. While the store answers the queries of the run and the Generation
    Collaborator returns the text [T], the Job Processor returns
    [{success: true, messageId, response: T}] and leaves the target message
    with status completed and [T] as its content and response text; no
    other message changes. *)
Theorem processGeminiJob_completes w d T :
  store_answers 3 w ->
  (forall prompt, generateContent w prompt = Ok T) ->
  eval (processGeminiJob d) w = Ok (JobResult true (messageId d) T) /\
  messages (exec (processGeminiJob d) w)
    = set_response T T completed (now w) (messageId d) <$> messages w /\
  (forall m, m ∈ messages (exec (processGeminiJob d) w) -> msg_id m = messageId d ->
     msg_status m = completed /\ msg_content m = T /\ msg_gemini_response m = Some T) /\
  (forall m, m ∈ messages w -> msg_id m <> messageId d ->
     m ∈ messages (exec (processGeminiJob d) w)).
Proof.
  intros Hs Hg. destruct (processGeminiJob_run w d Hs) as (T' & HT & He & Hm & Ht).
  assert (T' = T) as ->.
  { rewrite HT. unfold reply. by rewrite Hg. }
  split; [done|]. split; [done|]. split; [done|].
  intros m Hin Hne. rewrite Hm. apply list_elem_of_fmap. exists m. split; [|done].
  symmetry. by apply set_response_target.
Qed.

(** The scenario of the specification: message 42, the collaborator
    returns "Hello". *)
Lemma processGeminiJob_completes_witness :
  message_view <$> messages (exec (processGeminiJob d42) w42)
    = [(42%Z, completed, "Hello", Some "Hello"); (41%Z, completed, "Hi", None)].
Proof.
  destruct (processGeminiJob_completes w42 d42 "Hello") as (_ & -> & _).
  - unfold store_answers. simpl. constructor.
  - intros; reflexivity.
  - reflexivity.
Defined.

(** *** Re-runs *)

Lemma filter_completed_fmap (f : message -> message) room i (ms : list message) :
  (forall m, msg_id m <> i -> f m = m) ->
  (forall m, msg_id m = i -> msg_status (f m) = processing) ->
  filter (completed_in room) (f <$> ms)
    = filter (fun m => completed_in room m /\ msg_id m <> i) ms.
Proof.
  intros Hne Heq. induction ms as [|m ms IH]; [done|].
  rewrite fmap_cons, !filter_cons, IH.
  destruct (decide (msg_id m = i)) as [Hi|Hi].
  - rewrite decide_False, decide_False; [done|tauto|].
    unfold completed_in. rewrite (Heq m Hi). intros [_ ?]. discriminate.
  - rewrite (Hne m Hi). destruct (decide (completed_in room m)).
    + by rewrite decide_True.
    + by rewrite decide_False by tauto.
Qed.

(** The message a job is about is in status processing when the history
    is read, so what it held before is not part of the context. *)
Lemma history_ignores_target s text r u room i (ms : list message) :
  recent_completed room (set_status processing i <$> (rewrite_message s text r u i <$> ms))
    = recent_completed room (set_status processing i <$> ms).
Proof.
  unfold recent_completed. rewrite <- list_fmap_compose.
  rewrite (filter_completed_fmap _ room i), (filter_completed_fmap _ room i); [done|..];
    intros m Hm; simpl; unfold set_status, rewrite_message;
    repeat (case_decide; simpl in * ); congruence.
Qed.

Lemma set_response_rewrite r t s time s' text' r' u i m :
  set_response r t s time i (set_status processing i (rewrite_message s' text' r' u i m))
    = set_response r t s time i (set_status processing i m).
Proof.
  unfold set_response, set_status, rewrite_message.
  destruct m; simpl. repeat (case_decide; simpl in * ); congruence.
Qed.

(** C1, as amended.  The Job Processor does not read the status of the
    message: whatever status, text and response an earlier run left in the
    target message (terminal ones included), a run whose queries are
    answered returns the same result and leaves the same table of messages
    as a run on the untouched message, and the target message ends
    completed with the text this run generated. *)
Theorem rerun_is_unguarded w d s text r u :
  store_answers 3 w ->
  let w0 := with_messages (fmap (rewrite_message s text r u (messageId d))) w in
  eval (processGeminiJob d) w0 = eval (processGeminiJob d) w /\
  messages (exec (processGeminiJob d) w0) = messages (exec (processGeminiJob d) w) /\
  exists res, eval (processGeminiJob d) w0 = Ok res /\
    forall m, m ∈ messages (exec (processGeminiJob d) w0) -> msg_id m = messageId d ->
      msg_status m = completed /\ msg_content m = response res /\
      msg_gemini_response m = Some (response res).
Proof.
  intros Hs w0.
  assert (Hs0 : store_answers 3 w0) by (destruct w; exact Hs).
  destruct (processGeminiJob_run w0 d Hs0) as (T0 & HT0 & He0 & Hm0 & Ht0).
  destruct (processGeminiJob_run w d Hs) as (T & HT & He & Hm & _).
  assert (Hms : messages w0 = rewrite_message s text r u (messageId d) <$> messages w)
    by (by destruct w).
  assert (Hr : forall um rows, reply w0 um rows = reply w um rows) by (by destruct w).
  assert (Hn : now w0 = now w) by (by destruct w).
  assert (T0 = T) as ->.
  { rewrite HT0, HT, Hms, Hr. unfold context_of. by rewrite history_ignores_target. }
  split; [congruence|]. split.
  - rewrite Hm0, Hm, Hms, Hn, <- list_fmap_compose. apply list_fmap_ext. intros ? m _. simpl.
    rewrite <- (set_response_set_status T T completed processing (now w) (messageId d)
                  (rewrite_message _ _ _ _ _ m)).
    rewrite set_response_rewrite. apply set_response_set_status.
  - eexists. split; [exact He0|]. exact Ht0.
Qed.

(** A completed message and a failed one are both rewritten by a re-run. *)
Lemma rerun_rewrites_terminal_messages :
  (message_view <$> messages w_done
     = [(42%Z, completed, "Hello", Some "Hello"); (41%Z, completed, "Hi", None)] /\
   message_view <$> messages (exec (processGeminiJob d42) w_done)
     = [(42%Z, completed, "Bye", Some "Bye"); (41%Z, completed, "Hi", None)]) /\
  (message_view <$> messages w_failed
     = [(42%Z, failed, fallback_text, None); (41%Z, completed, "Hi", None)] /\
   message_view <$> messages (exec (processGeminiJob d42) w_failed)
     = [(42%Z, completed, "Bye", Some "Bye"); (41%Z, completed, "Hi", None)]) /\
  message_view <$> messages (exec (processGeminiJob d42) w_done)
    <> message_view <$> messages w_done /\
  message_view <$> messages (exec (processGeminiJob d42) w_failed)
    <> message_view <$> messages w_failed.
Proof.
  split; [split; vm_compute; reflexivity|].
  split; [split; vm_compute; reflexivity|].
  split; vm_compute; discriminate.
Qed.

Lemma rerun_is_unguarded_witness :
  messages (exec (processGeminiJob d42) w_failed) = messages (exec (processGeminiJob d42) w_done).
Proof.
  apply (rerun_is_unguarded w_done d42 failed fallback_text None 900).
  unfold store_answers. simpl. constructor.
Defined.

(** *** Failures of the generation collaborator *)




(** A store that rejects the first query: the run throws and the message
    is left failed with the fallback text. *)
Example store_error_fails_the_message :
  eval (processGeminiJob d42) w_flaky = Throw StoreError /\
  message_view <$> messages (exec (processGeminiJob d42) w_flaky)
    = [(42%Z, failed, fallback_text, None); (41%Z, completed, "Hi", None)].
Proof. split; vm_compute; reflexivity. Qed.

(** ** The queue *)

(** X20. [initializeGeminiQueue] never throws: it leaves the BullMQ queue when
    Redis is initialised and answers the ping, and the mock queue
    otherwise. *)
Lemma initializeGeminiQueue_falls_back w :
  eval initializeGeminiQueue w = Ok tt /\
  (cache_down w -> geminiQueue (exec initializeGeminiQueue w) = Some MockQueue) /\
  (~ cache_down w -> geminiQueue (exec initializeGeminiQueue w) = Some (BullQueue [] 0)).
Proof.
  unfold cache_down, eval, exec, initializeGeminiQueue, createMockQueue, redis_ping,
    redis_command, getRedis, try_catch, bind, ret, throw, modify.
  destruct w as [ms cs us mseq cseq t pf r rf q g es]; simpl.
  destruct r as [r|]; simpl; [|by intuition].
  destruct rf as [|[] rf]; simpl; repeat split; try done; intros H; try by destruct H.
  all: exfalso; apply H; by right.
Qed.

Lemma addGeminiJob_mock w d :
  geminiQueue w = Some MockQueue ->
  addGeminiJob d w =
    match processGeminiJob d w with
    | (Ok _, w') => (Ok (JobHandle (pretty (now w')) d), w')
    | (Throw e, w') => (Throw e, w')
    end.
Proof.
  intros Hq. unfold addGeminiJob, try_catch, bind, get_world. rewrite Hq.
  unfold queue_add, mock_add, try_catch, bind, get_world, ret, throw.
  by destruct (processGeminiJob d w) as [[?|?] ?].
Qed.

Lemma addGeminiJob_bull w d jobs c :
  geminiQueue w = Some (BullQueue jobs c) ->
  redis_answers 1 w ->
  addGeminiJob d w =
    (Ok (JobHandle (pretty (c + 1)%Z) d),
     with_geminiQueue
       (Some (BullQueue (jobs ++ [Job (pretty (c + 1)%Z) d st_waiting 0 (now w + 0)%Z None])
                (c + 1)%Z))
       (with_redis_faults (drop 1 (redis_faults w)) w)).
Proof.
  unfold redis_answers.
  destruct w as [ms cs us mseq cseq t pf r rf q g es]; simpl. intros -> Hr.
  destruct rf as [|[] rf]; simpl in Hr; decompose_Forall; try discriminate; reflexivity.
Qed.

(** Enqueueing on the durable queue does not run the job. *)
Lemma addGeminiJob_bull_messages w d jobs c :
  geminiQueue w = Some (BullQueue jobs c) ->
  messages (exec (addGeminiJob d) w) = messages w.
Proof.
  destruct w as [ms cs us mseq cseq t pf r rf q g es]; simpl. intros ->.
  by destruct rf as [|[] rf].
Qed.

Lemma worker_step_leases w jobs c j :
  geminiQueue w = Some (BullQueue jobs c) ->
  find_waiting jobs = Some j ->
  worker_step w =
    match processGeminiJob (data j)
            (with_jobs (update_job (job_id j) (set_state st_active))
               (with_now (Z.max (now w) (available_at j)) w)) with
    | (Ok _, w') =>
        (Ok true, with_jobs (update_job (job_id j) (set_state st_completed)) w')
    | (Throw e, w') =>
        (Ok true, with_jobs (fail_job (now w') (job_id j) e) w')
    end.
Proof.
  intros Hq Hj. unfold worker_step, bind at 1, get_world. rewrite Hq, Hj.
  unfold bind, try_catch, modify, set_jobs, ret, with_jobs, exec, get_world. simpl.
  rewrite Hq.
  match goal with |- context [processGeminiJob ?d ?x] =>
    destruct (processGeminiJob d x) as [[res|e] w'] end; reflexivity.
Qed.

Lemma worker_step_idle w :
  match geminiQueue w with
  | Some (BullQueue jobs _) => find_waiting jobs = None
  | _ => True
  end ->
  worker_step w = (Ok false, w).
Proof.
  unfold worker_step, bind, get_world.
  destruct (geminiQueue w) as [[jobs c|]|]; try done. by intros ->.
Qed.

Lemma worker_run_idle n w :
  match geminiQueue w with
  | Some (BullQueue jobs _) => find_waiting jobs = None
  | _ => True
  end ->
  worker_run n w = (Ok tt, w).
Proof.
  intros H. destruct n; [done|]. simpl. unfold bind. by rewrite worker_step_idle.
Qed.

Lemma with_jobs_events f w : events (with_jobs f w) = events w.
Proof. unfold with_jobs, exec, set_jobs, modify. simpl. by destruct (geminiQueue w) as [[]|]. Qed.

(** What the job body throws stays in the worker: a turn of the worker
    returns normally and emits nothing. *)
Lemma worker_step_quiet w :
  exists ran, eval worker_step w = Ok ran /\ events (exec worker_step w) = events w.
Proof.
  destruct (geminiQueue w) as [[jobs c|]|] eqn:Hq.
  - destruct (find_waiting jobs) as [j|] eqn:Hj.
    + unfold eval, exec. rewrite (worker_step_leases w jobs c j Hq Hj).
      set (w1 := with_jobs _ _).
      pose proof (processGeminiJob_frame (data j) w1) as (He & _).
      unfold exec in He.
      assert (Hw1 : events w1 = events w).
      { unfold w1. rewrite with_jobs_events. by destruct w. }
      destruct (processGeminiJob (data j) w1) as [[res|e] w']; simpl in *;
        exists true; rewrite with_jobs_events; split; congruence.
    + exists false. unfold eval, exec. rewrite worker_step_idle; [done|]. by rewrite Hq.
  - exists false. unfold eval, exec. rewrite worker_step_idle; [done|]. by rewrite Hq.
  - exists false. unfold eval, exec. rewrite worker_step_idle; [done|]. by rewrite Hq.
Qed.

Lemma worker_run_quiet n w :
  eval (worker_run n) w = Ok tt /\ events (exec (worker_run n) w) = events w.
Proof.
  revert w. induction n as [|n IH]; intros w; [done|].
  destruct (worker_step_quiet w) as (ran & Hr & He).
  unfold eval, exec in *. simpl. unfold bind.
  destruct (worker_step w) as [[b|e] w']; simpl in *; [|discriminate].
  destruct b; [|done]. destruct (IH w') as [IH1 IH2]. split; congruence.
Qed.

(** The processor reads neither the queue nor the schedule of Redis. *)
Lemma processGeminiJob_elsewhere d ms cs us mseq cseq t pf r rf q g es rf' q' :
  processGeminiJob d (World ms cs us mseq cseq t pf r rf' q' g es)
  = let (res, w') := processGeminiJob d (World ms cs us mseq cseq t pf r rf q g es) in
    (res, with_geminiQueue q' (with_redis_faults rf' w')).
Proof.
  destruct pf as [|[] [|[] [|[] [|[] pf]]]]; unfold_async; simpl;
    repeat match goal with |- context [g ?p] => destruct (g p) end; reflexivity.
Qed.

(** C7, as amended.  [add] of the mock runs the Job Processor once, inside
    the call, and throws what it throws; it resolves to a job whose id is
    [Date.now()] as a string.  When the store answers the queries of that
    run, the queue backend accepts the job and the durable queue holds no
    other job, the durable queue ends with the messages the mock left:
    [add] records the job and leaves the messages alone, and the worker
    completes the job at its first attempt.  Otherwise the two can differ.
    When the backend rejects the job, the durable [add] throws, records no
    job and leaves the messages as they were.  When the run of the Job
    Processor throws, the durable queue puts the job back to waiting with
    its error, to be run again after the backoff; a job is put back while
    it has made fewer than 3 attempts and is failed at the third. *)
Theorem fallback_parity w d c n :
  let w_mock := with_geminiQueue (Some MockQueue) w in
  let w_bull := with_geminiQueue (Some (BullQueue [] c)) w in
  (messages (exec (addGeminiJob d) w_mock) = messages (exec (processGeminiJob d) w) /\
   (forall res, eval (processGeminiJob d) w = Ok res ->
      eval (addGeminiJob d) w_mock = Ok (JobHandle (pretty (now w)) d)) /\
   (forall e, eval (processGeminiJob d) w = Throw e ->
      eval (addGeminiJob d) w_mock = Throw e)) /\
  (store_answers 3 w -> redis_answers 1 w ->
   eval (addGeminiJob d) w_mock = Ok (JobHandle (pretty (now w)) d) /\
   eval (addGeminiJob d) w_bull = Ok (JobHandle (pretty (c + 1)%Z) d) /\
   messages (exec (addGeminiJob d) w_bull) = messages w /\
   messages (exec (addGeminiJob d ;;; worker_run (S n)) w_bull)
     = messages (exec (addGeminiJob d) w_mock) /\
   geminiQueue (exec (addGeminiJob d ;;; worker_run (S n)) w_bull)
     = Some (BullQueue [Job (pretty (c + 1)%Z) d st_completed 0 (now w + 0)%Z None] (c + 1)%Z)) /\
  (head (redis_faults w) = Some true ->
   eval (addGeminiJob d) w_bull = Throw RedisError /\
   messages (exec (addGeminiJob d ;;; worker_run n) w_bull) = messages w /\
   geminiQueue (exec (addGeminiJob d ;;; worker_run n) w_bull) = Some (BullQueue [] c)) /\
  (forall e, redis_answers 1 w -> eval (processGeminiJob d) w = Throw e ->
   messages (exec (addGeminiJob d ;;; worker_step) w_bull)
     = messages (exec (addGeminiJob d) w_mock) /\
   geminiQueue (exec (addGeminiJob d ;;; worker_step) w_bull)
     = Some (BullQueue [Job (pretty (c + 1)%Z) d st_waiting 1 (now w + 2000 * 2 ^ 1)%Z (Some e)]
               (c + 1)%Z)) /\
  (forall t e j,
     fail_job t (job_id j) e [j]
     = [if decide (attemptsMade j < 2)%nat
        then Job (job_id j) (data j) st_waiting (S (attemptsMade j))
               (t + 2000 * 2 ^ Z.of_nat (S (attemptsMade j)))%Z (Some e)
        else Job (job_id j) (data j) st_failed (S (attemptsMade j)) (available_at j) (Some e)]).
Proof.
  intros w_mock w_bull.
  assert (Hmock : addGeminiJob d w_mock = _) by (apply addGeminiJob_mock; by destruct w).
  assert (Hpm : processGeminiJob d w_mock
                = let (res, w') := processGeminiJob d w in
                  (res, with_geminiQueue (Some MockQueue) (with_redis_faults (redis_faults w) w'))).
  { destruct w as [ms cs us mseq cseq t pf r rf q g es]. apply processGeminiJob_elsewhere. }
  split; [|split; [|split; [|split]]].
  - unfold eval, exec. rewrite Hmock, Hpm.
    pose proof (processGeminiJob_frame d w) as (_ & _ & Hnow & _). unfold exec in Hnow.
    destruct (processGeminiJob d w) as [[res|e] w']; simpl in *.
    + split; [by destruct w'|]. split; [|discriminate].
      intros _ _. f_equal. f_equal. f_equal. destruct w'; simpl in *. done.
    + split; [by destruct w'|]. split; [discriminate|]. by intros e' [= ->].
  - intros Hs Hr.
    assert (Hsm : store_answers 3 w_mock) by (destruct w; exact Hs).
    assert (Hrb : redis_answers 1 w_bull) by (destruct w; exact Hr).
    assert (Hbull : addGeminiJob d w_bull = _)
      by (apply (addGeminiJob_bull w_bull d [] c); [by destruct w|exact Hrb]).
    clear Hpm. rewrite (processGeminiJob_answered w_mock d Hsm) in Hmock.
    unfold eval, exec, bind. rewrite Hmock, Hbull.
    cbv zeta. simpl worker_run. unfold bind.
    set (j := Job (pretty (c + 1)%Z) d st_waiting 0 (now w_bull + 0)%Z None).
    set (w1 := with_geminiQueue _ _).
    rewrite (worker_step_leases w1 [j] (c + 1)%Z j); [|by destruct w|reflexivity].
    change (data j) with d. change (job_id j) with (pretty (c + 1)%Z).
    set (w2 := with_jobs _ _).
    assert (Hs2 : store_answers 3 w2) by (destruct w; exact Hs).
    rewrite (processGeminiJob_answered w2 d Hs2). cbv zeta.
    rewrite worker_run_idle.
    2:{ destruct w; simpl. unfold find_waiting. simpl.
        rewrite (decide_True (P := pretty (c + 1)%Z = pretty (c + 1)%Z)) by done. simpl.
        rewrite (decide_True (P := pretty (c + 1)%Z = pretty (c + 1)%Z)) by done. simpl.
        reflexivity. }
    destruct w as [ms cs us mseq cseq t pf r rf q g es]; simpl.
    rewrite (decide_True (P := pretty (c + 1)%Z = pretty (c + 1)%Z)) by done. simpl.
    rewrite (decide_True (P := pretty (c + 1)%Z = pretty (c + 1)%Z)) by done. simpl.
    replace (t `max` (t + 0))%Z with t by lia.
    repeat split; reflexivity.
  - intros Hh. clear Hmock Hpm.
    destruct w as [ms cs us mseq cseq t pf r rf q g es]; simpl in *.
    destruct rf as [|[] rf]; try discriminate. by destruct n.
  - intros e Hr He. subst w_mock w_bull.
    destruct w as [ms cs us mseq cseq t pf r rf q g es].
    unfold eval, exec, bind in *. rewrite Hmock, Hpm.
    rewrite (addGeminiJob_bull
               (with_geminiQueue (Some (BullQueue [] c))
                  (World ms cs us mseq cseq t pf r rf q g es)) d [] c eq_refl) by exact Hr.
    set (j := Job (pretty (c + 1)%Z) d st_waiting 0 (t + 0)%Z None).
    match goal with |- context [worker_step ?x] =>
      rewrite (worker_step_leases x [j] (c + 1)%Z j eq_refl eq_refl) end.
    change (data j) with d. change (job_id j) with (pretty (c + 1)%Z).
    unfold with_jobs, exec, set_jobs, modify. simpl.
    rewrite ?(decide_True (P := pretty (c + 1)%Z = pretty (c + 1)%Z)) by done. simpl.
    replace (t `max` (t + 0))%Z with t by lia.
    unfold with_geminiQueue, with_now, with_redis_faults. simpl.
    rewrite (processGeminiJob_elsewhere d ms cs us mseq cseq t pf r rf q g es).
    pose proof (processGeminiJob_frame d (World ms cs us mseq cseq t pf r rf q g es))
      as (_ & _ & Hnow & _). unfold exec in Hnow.
    destruct (processGeminiJob d (World ms cs us mseq cseq t pf r rf q g es)) as [[res|e'] w'];
      simpl in *; [discriminate|]. injection He as ->.
    destruct w' as [ms' cs' us' mseq' cseq' t' pf' r' rf' q' g' es']; simpl in *. subst t'.
    unfold fail_job. simpl.
    rewrite ?(decide_True (P := pretty (c + 1)%Z = pretty (c + 1)%Z)) by done. simpl.
    split; [done|]. rewrite filter_cons. simpl.
    rewrite decide_False by (by intros H). reflexivity.
  - intros t e j. unfold fail_job. simpl.
    rewrite (decide_True (P := job_id j = job_id j)) by done. simpl.
    change attempts_limit with 3%nat. change backoff_base with 2000%Z.
    destruct (decide (S (attemptsMade j) < 3)%nat) as [H|H].
    + rewrite (decide_True (P := (attemptsMade j < 2)%nat)) by lia. rewrite filter_cons.
      rewrite decide_False by (by intros H'). reflexivity.
    + rewrite (decide_False (P := (attemptsMade j < 2)%nat)) by lia. unfold update_job. simpl.
      by rewrite (decide_True (P := job_id j = job_id j)).
Qed.

Lemma fallback_parity_witness :
  messages (exec (addGeminiJob d42 ;;; worker_run 3)
              (with_geminiQueue (Some (BullQueue [] 0)) w42))
    = messages (exec (addGeminiJob d42) (with_geminiQueue (Some MockQueue) w42)).
Proof.
  apply (fallback_parity w42 d42 0 2).
  - unfold store_answers. simpl. constructor.
  - unfold redis_answers. simpl. constructor.
Defined.

(** The store rejects one query.  The mock runs the job once: the message
    is failed and [add] throws.  The durable queue runs it again after the
    backoff: the message is completed. *)
Lemma retry_breaks_parity :
  (eval (addGeminiJob d42) (with_geminiQueue (Some MockQueue) w_flaky) = Throw StoreError /\
   message_view <$> messages (exec (addGeminiJob d42)
                                (with_geminiQueue (Some MockQueue) w_flaky))
     = [(42%Z, failed, fallback_text, None); (41%Z, completed, "Hi", None)]) /\
  (eval (addGeminiJob d42) (with_geminiQueue (Some (BullQueue [] 0)) w_flaky)
     = Ok (JobHandle "1" d42) /\
   message_view <$> messages (exec (addGeminiJob d42 ;;; worker_run 3)
                                (with_geminiQueue (Some (BullQueue [] 0)) w_flaky))
     = [(42%Z, completed, "Hello", Some "Hello"); (41%Z, completed, "Hi", None)] /\
   geminiQueue (exec (addGeminiJob d42 ;;; worker_run 3)
                  (with_geminiQueue (Some (BullQueue [] 0)) w_flaky))
     = Some (BullQueue [Job "1" d42 st_completed 1 5000 (Some StoreError)] 1)).
Proof. repeat split; vm_compute; reflexivity. Qed.

(** ** Job errors and the HTTP caller *)

Lemma handler_returns (m : M unit) w :
  eval (try_catch m (fun e => emit (EvNext e))) w = Ok tt.
Proof. unfold eval, try_catch. by destruct (m w) as [[[]|e] w']. Qed.

Lemma post_message_returns req w : eval (post_message req) w = Ok tt.
Proof. unfold post_message. apply handler_returns. Qed.

Lemma post_message_then_worker req n w :
  events (exec (post_message req ;;; worker_run n) w) = events (exec (post_message req) w).
Proof.
  pose proof (post_message_returns req w) as H.
  unfold eval, exec, bind in *.
  destruct (post_message req w) as [[[]|e] w']; simpl in *; [|discriminate].
  apply worker_run_quiet.
Qed.

(** Under the mock queue, what the job body throws is thrown by the
    handler's call of [addGeminiJob] and ends in [next(error)]. *)
Lemma post_message_mock_error w req room text e :
  params_id req = Some room ->
  body_content req = Some text ->
  trim text <> "" ->
  filter (owned_by room (req_user_id req)) (chatrooms w) <> [] ->
  store_answers 3 w ->
  geminiQueue w = Some MockQueue ->
  let d := JobData (message_seq w + 1)%Z room (req_user_id req) (trim text) in
  eval (processGeminiJob d) (exec (submitted room (req_user_id req) (trim text)) w) = Throw e ->
  events (exec (post_message req) w) = EvNext e :: events w.
Proof.
  intros Hp Hc Ht Ho Hs Hq d. subst d.
  assert (Hf : is_falsy (Some text) || bool_decide (String.length (trim text) = 0)%nat = false).
  { destruct text as [|a text]; [done|]. simpl.
    apply bool_decide_eq_false. by destruct (trim (String a text)). }
  unfold post_message, submitted, exec, eval, try_catch at 1.
  cbv zeta. rewrite Hp, Hc. cbv beta iota. change (default "" (Some text)) with text.
  rewrite Hf.
  unfold store_answers in Hs.
  destruct w as [ms cs us mseq cseq t pf r rf q g es]; simpl in *. subst q.
  destruct (filter (owned_by room (req_user_id req)) cs) as [|c0 cs0] eqn:Hfl; [done|].
  destruct pf as [|[] [|[] [|[] pf]]]; simpl in Hs; decompose_Forall; try discriminate;
    unfold select_chatroom, insert_message, pool_query, bind, ret, emit, modify; simpl;
    rewrite Hfl; simpl; intros Hj;
    match type of Hj with (processGeminiJob ?d0 ?x).1 = _ =>
      rewrite (addGeminiJob_mock x d0 eq_refl);
      pose proof (processGeminiJob_frame d0 x) as (He & _); unfold exec in He;
      destruct (processGeminiJob d0 x) as [[res|e'] w'] end;
    simpl in *; try discriminate; injection Hj as ->; by rewrite He.
Qed.

(** C4, as amended.  Under the durable queue an error raised by the job
    body does not reach the HTTP caller: enqueueing does not run the job,
    and the worker keeps the error in the job, returns normally and emits
    neither a response nor a [next(error)], so the events of a request are
    those its handler left.  Under the mock queue the job body runs inside
    [addGeminiJob]: an error it raises is thrown to the handler, which ends
    the request with [next(error)] and no success response. *)
Theorem job_errors_and_the_http_caller :
  (forall w n, eval (worker_run n) w = Ok tt /\ events (exec (worker_run n) w) = events w) /\
  (forall w req n,
     events (exec (post_message req ;;; worker_run n) w) = events (exec (post_message req) w)) /\
  (forall w d jobs c, geminiQueue w = Some (BullQueue jobs c) ->
     messages (exec (addGeminiJob d) w) = messages w) /\
  (forall w d e, geminiQueue w = Some MockQueue ->
     eval (processGeminiJob d) w = Throw e ->
     eval (addGeminiJob d) w = Throw e /\
     exec (addGeminiJob d) w = exec (processGeminiJob d) w) /\
  (forall w req room text e,
     params_id req = Some room ->
     body_content req = Some text ->
     trim text <> "" ->
     filter (owned_by room (req_user_id req)) (chatrooms w) <> [] ->
     store_answers 3 w ->
     geminiQueue w = Some MockQueue ->
     eval (processGeminiJob (JobData (message_seq w + 1)%Z room (req_user_id req) (trim text)))
          (exec (submitted room (req_user_id req) (trim text)) w) = Throw e ->
     events (exec (post_message req) w) = EvNext e :: events w).
Proof.
  split; [intros w n; apply worker_run_quiet|].
  split; [intros w req n; apply post_message_then_worker|].
  split; [intros w d jobs c; apply addGeminiJob_bull_messages|].
  split; [|intros w req room text e; apply post_message_mock_error].
  intros w d e Hq He. unfold eval, exec in *. rewrite (addGeminiJob_mock w d Hq).
  destruct (processGeminiJob d w) as [[res|e'] w']; simpl in *; [discriminate|].
  injection He as ->. by split.
Qed.

(** The store rejects the first query of the job body while user 1 sends
    "Hi" under the mock queue: the job body throws, and the request ends in
    [next(error)] with no response. *)
Lemma mock_job_error_reaches_caller :
  geminiQueue w_fourth = Some MockQueue /\
  eval (processGeminiJob (JobData 44 7 1 "Hi")) (exec (submitted 7 1 "Hi") w_fourth)
    = Throw StoreError /\
  events (exec (post_message req_hi) w_fourth) = [EvNext StoreError] /\
  message_view <$> messages (exec (post_message req_hi) w_fourth)
    = [(42%Z, pending, "Processing your request...", None); (41%Z, completed, "Hi", None);
       (43%Z, completed, "Hi", None); (44%Z, failed, fallback_text, None)].
Proof. repeat split; vm_compute; reflexivity. Qed.

(** The same request under the durable queue, the store rejecting the
    first query of the job body (the sixth query, after the five of the
    handler): the caller gets its 201 and the error stays in the job. *)
Example durable_job_error_stays_in_the_job :
  let w := exec (post_message req_hi ;;; worker_run 1)
             (with_pool_faults [false; false; false; false; false; true]
                (with_geminiQueue (Some (BullQueue [] 0)) w42)) in
  (exists body, events w = [EvRespond 201 body; EvRedisDel "chatrooms:user:1" true;
                            EvInvalidate 1]) /\
  (exists j, geminiQueue w = Some (BullQueue [j] 1) /\
             state j = st_waiting /\ attemptsMade j = 1%nat /\
             last_error j = Some StoreError).
Proof. split; eexists; vm_compute; [reflexivity|]. repeat split. Qed.

Lemma job_errors_and_the_http_caller_witness :
  events (exec (post_message req_hi) w_fourth) = EvNext StoreError :: events w_fourth.
Proof.
  apply (proj2 (proj2 (proj2 (proj2 job_errors_and_the_http_caller))) w_fourth req_hi 7%Z "Hi").
  - reflexivity.
  - reflexivity.
  - vm_compute. discriminate.
  - vm_compute. discriminate.
  - unfold store_answers. simpl. repeat constructor.
  - reflexivity.
  - vm_compute. reflexivity.
Defined.

(** ** Queue statistics *)

(** C10. [getQueueStats] never throws: it returns a record whose [total]
    is the sum of its four counts; the record is the count of the jobs by
    state when the four queries of the durable queue are answered, and it
    is all zero when the queue is not initialised, when a query is
    rejected, and for the mock queue. *)
Theorem getQueueStats_total w :
  exists s,
    eval getQueueStats w = Ok s /\
    Stats.total s = (Stats.waiting s + Stats.active s + Stats.completed s + Stats.failed s)%nat /\
    match geminiQueue w with
    | None => s = no_stats
    | Some MockQueue => s = no_stats
    | Some (BullQueue jobs _) =>
        (redis_answers 4 w -> s = count_jobs jobs) /\
        (~ redis_answers 4 w -> s = no_stats)
    end.
Proof.
  unfold redis_answers.
  destruct w as [ms cs us mseq cseq t pf r rf q g es].
  destruct q as [[jobs c|]|]; simpl.
  - destruct rf as [|[] [|[] [|[] [|[] rf]]]];
      (eexists; split; [reflexivity|]); (split; [reflexivity|]); split; intros H;
      try reflexivity;
      try (exfalso; simpl in H; decompose_Forall; discriminate);
      try (exfalso; apply H; simpl; repeat constructor).
  - eexists; split; [reflexivity|]. split; reflexivity.
  - eexists; split; [reflexivity|]. split; reflexivity.
Qed.

Example getQueueStats_of_four_jobs :
  eval getQueueStats w_jobs = Ok (Stats.Make 1 1 1 1 4) /\
  eval getQueueStats (with_redis_faults [false; false; true] w_jobs) = Ok no_stats /\
  eval getQueueStats (with_geminiQueue None w_jobs) = Ok no_stats.
Proof. repeat split; vm_compute; reflexivity. Qed.

Lemma getQueueStats_total_witness :
  exists s, eval getQueueStats w_jobs = Ok s /\
    Stats.total s = (Stats.waiting s + Stats.active s + Stats.completed s + Stats.failed s)%nat.
Proof.
  destruct (getQueueStats_total w_jobs) as (s & Hs & Ht & _). by exists s.
Defined.

(** ** Configuration of the queue and of the worker *)

(** C9. When Redis answers the ping, [initializeGeminiQueue] constructs
    one queue and then one worker, both named 'gemini-responses', and
    nothing else.  The queue is constructed with 3 attempts, an exponential
    backoff whose base delay (the later of the two [backoff] properties of
    the literal, 2000 ms) lies between 1 and 2 seconds, and a job timeout of
    30 s; the worker with a lock duration of 30 s, a lock renewal every
    15 s, a stalled-job sweep every 15 s, at most 2 stall-retries, and a
    concurrency of 2.  The retries of the worker read the same options: 3
    attempts, base 2000 ms.  When the cache is down neither is
    constructed. *)
Theorem queue_and_worker_limits w :
  (~ cache_down w ->
   exists defaults options,
     events (exec initializeGeminiQueue w)
       = [EvNewWorker "gemini-responses" options; EvNewQueue "gemini-responses" defaults]
           ++ events w /\
     geminiQueue (exec initializeGeminiQueue w) = Some (BullQueue [] 0) /\
     js_num (js_get "attempts" defaults) = Some 3%Z /\
     (exists backoff delay,
        js_get "backoff" defaults = Some backoff /\
        js_get "type" backoff = Some (JStr "exponential") /\
        js_num (js_get "delay" backoff) = Some delay /\
        (1000 <= delay <= 2000)%Z /\
        backoff_base = delay) /\
     js_num (js_get "timeout" defaults) = Some 30000%Z /\
     js_num (js_get "lockDuration" options) = Some 30000%Z /\
     js_num (js_get "lockRenewTime" options) = Some 15000%Z /\
     js_num (js_get "stalledInterval" options) = Some 15000%Z /\
     js_num (js_get "maxStalledCount" options) = Some 2%Z /\
     js_num (js_get "concurrency" options) = Some 2%Z /\
     js_num (js_get "attempts" defaults) = Some (Z.of_nat attempts_limit)) /\
  (cache_down w ->
   events (exec initializeGeminiQueue w) = events w /\
   geminiQueue (exec initializeGeminiQueue w) = Some MockQueue).
Proof.
  unfold cache_down, exec, initializeGeminiQueue, createMockQueue, new_queue, new_worker,
    redis_ping, redis_command, getRedis, try_catch, bind, ret, throw, emit, modify.
  destruct w as [ms cs us mseq cseq t pf r rf q g es]; simpl.
  assert (Hopts :
    js_num (js_get "attempts" defaultJobOptions) = Some 3%Z /\
    (exists backoff delay,
       js_get "backoff" defaultJobOptions = Some backoff /\
       js_get "type" backoff = Some (JStr "exponential") /\
       js_num (js_get "delay" backoff) = Some delay /\
       (1000 <= delay <= 2000)%Z /\
       backoff_base = delay) /\
    js_num (js_get "timeout" defaultJobOptions) = Some 30000%Z /\
    js_num (js_get "lockDuration" workerOptions) = Some 30000%Z /\
    js_num (js_get "lockRenewTime" workerOptions) = Some 15000%Z /\
    js_num (js_get "stalledInterval" workerOptions) = Some 15000%Z /\
    js_num (js_get "maxStalledCount" workerOptions) = Some 2%Z /\
    js_num (js_get "concurrency" workerOptions) = Some 2%Z /\
    js_num (js_get "attempts" defaultJobOptions) = Some (Z.of_nat attempts_limit)).
  { split; [reflexivity|]. split.
    - exists (JObj [("type", JStr "exponential"); ("delay", JNum 2000)]), 2000%Z.
      repeat split; try reflexivity; lia.
    - repeat split; reflexivity. }
  destruct r as [r|]; simpl.
  - destruct rf as [|[] rf]; simpl; split.
    + intros _. exists defaultJobOptions, workerOptions. split; [reflexivity|]. by split.
    + intros [H|H]; discriminate.
    + intros H. exfalso. apply H. by right.
    + intros _. by split.
    + intros _. exists defaultJobOptions, workerOptions. split; [reflexivity|]. by split.
    + intros [H|H]; discriminate.
  - split; [intros H; exfalso; apply H; by left|]. intros _. by split.
Qed.

(** Redis is up in [w42]: the queue and the worker are constructed. *)
Lemma queue_and_worker_limits_witness :
  exists defaults options,
    events (exec initializeGeminiQueue w42)
      = [EvNewWorker "gemini-responses" options; EvNewQueue "gemini-responses" defaults]
          ++ events w42 /\
    js_num (js_get "attempts" defaults) = Some 3%Z /\
    js_num (js_get "concurrency" options) = Some 2%Z.
Proof.
  destruct (proj1 (queue_and_worker_limits w42))
    as (defaults & options & He & _ & Ha & _ & _ & _ & _ & _ & _ & Hc & _).
  - intros [H|H]; discriminate.
  - exists defaults, options. split; [exact He|]. split; [exact Ha|exact Hc].
Defined.

(** ** The chatroom-list cache *)

(** C6. No operation of the chatroom-list cache throws: a read returns a
    value, and [null] whenever the cache is down (Redis not initialised, or
    the command rejected); a write and an invalidation return normally. *)
Theorem cache_errors_are_swallowed
    (JSON_parse : string -> option jsval) (JSON_stringify : jsval -> string)
    (w : world) (uid : Z) (v : jsval) (ttl : Z) :
  (exists r, eval (getCachedChatrooms JSON_parse uid) w = Ok r /\ (cache_down w -> r = JNull)) /\
  eval (setCachedChatrooms JSON_stringify uid v ttl) w = Ok tt /\
  eval (clearChatroomCache uid) w = Ok tt.
Proof.
  unfold cache_down.
  destruct w as [ms cs us mseq cseq t pf r rf q g es]; simpl.
  destruct r as [r|]; [|split; [by exists JNull|done]].
  split; [|split].
  - unfold eval, getCachedChatrooms, try_catch, bind, getRedis, redis_get, redis_command, ret,
      throw; simpl.
    destruct rf as [|[] rf]; simpl.
    + destruct (r !! chatroom_key uid) as [[s ex]|]; [|eexists; split; [done|by intros [|]]].
      case_decide; [|eexists; split; [done|by intros [|]]].
      destruct s as [|a s]; [eexists; split; [done|by intros [|]]|].
      destruct (JSON_parse (String a s)); eexists; (split; [done|by intros [|]]).
    + eexists; split; [done|done].
    + destruct (r !! chatroom_key uid) as [[s ex]|]; [|eexists; split; [done|by intros [|]]].
      case_decide; [|eexists; split; [done|by intros [|]]].
      destruct s as [|a s]; [eexists; split; [done|by intros [|]]|].
      destruct (JSON_parse (String a s)); eexists; (split; [done|by intros [|]]).
  - unfold eval, setCachedChatrooms, try_catch, bind, getRedis, redis_setex, redis_command, ret;
      simpl.
    by destruct rf as [|[] rf].
  - unfold eval, clearChatroomCache, redis_del, try_catch, bind, getRedis, redis_command, ret,
      throw, emit, modify; simpl.
    by destruct rf as [|[] rf].
Qed.

(** A cached text is read back through [JSON.parse]; text that does not
    parse, an expired entry and a rejected command are misses. *)
Example getCachedChatrooms_hit_and_miss :
  let parse s := if decide (s = "[]") then Some (JArr []) else None in
  let cached s := with_redis (Some {[chatroom_key 1 := (s, 2000%Z)]}) w42 in
  eval (getCachedChatrooms parse 1) (cached "[]") = Ok (JArr []) /\
  eval (getCachedChatrooms parse 1) (cached "[") = Ok JNull /\
  eval (getCachedChatrooms parse 1) (with_now 2000 (cached "[]")) = Ok JNull /\
  eval (getCachedChatrooms parse 1) (with_redis_faults [true] (cached "[]")) = Ok JNull /\
  eval (getCachedChatrooms parse 1) (with_redis None w42) = Ok JNull.
Proof. repeat split; vm_compute; reflexivity. Qed.

Lemma cache_errors_are_swallowed_witness :
  eval (clearChatroomCache 1) (with_redis_faults [true] w42) = Ok tt /\
  eval (setCachedChatrooms (fun _ => "[]") 1 (JArr []) CACHE_TTL) (with_redis None w42) = Ok tt.
Proof.
  destruct (cache_errors_are_swallowed (fun _ => None) (fun _ => "[]")
              (with_redis_faults [true] w42) 1 (JArr []) CACHE_TTL) as (_ & _ & Hc).
  destruct (cache_errors_are_swallowed (fun _ => None) (fun _ => "[]")
              (with_redis None w42) 1 (JArr []) CACHE_TTL) as (_ & Hs & _).
  by split.
Defined.

(** ** Invalidation before success *)

Lemma pool_query_quiet {A} (q : world -> result A * world) :
  (forall w, events (q w).2 = events w /\ redis (q w).2 = redis w) -> quiet (pool_query q).
Proof.
  intros Hq w. unfold exec, pool_query.
  destruct w as [ms cs us mseq cseq t pf r rf qu g es]; simpl.
  destruct pf as [|[] pf]; [apply (Hq (World _ _ _ _ _ _ _ _ _ _ _ _))|done|].
  apply (Hq (World _ _ _ _ _ _ _ _ _ _ _ _)).
Qed.

Lemma insert_chatroom_quiet uid title description : quiet (insert_chatroom uid title description).
Proof. apply pool_query_quiet. by intros []. Qed.

Lemma select_chatroom_quiet i uid : quiet (select_chatroom i uid).
Proof. apply pool_query_quiet. by intros []. Qed.

Lemma update_chatroom_quiet title description i uid :
  quiet (update_chatroom title description i uid).
Proof. apply pool_query_quiet. by intros []. Qed.

Lemma touch_chatroom_quiet i : quiet (touch_chatroom i).
Proof. apply pool_query_quiet. by intros []. Qed.

Lemma delete_chatroom_quiet i uid : quiet (delete_chatroom i uid).
Proof.
  apply pool_query_quiet. intros w.
  destruct (filter (owned_by i uid) (chatrooms w)); by destruct w.
Qed.

Lemma insert_message_quiet room uid text ty s : quiet (insert_message room uid text ty s).
Proof. apply pool_query_quiet. by intros []. Qed.

Lemma increment_usage_quiet uid : quiet (increment_usage uid).
Proof. apply pool_query_quiet. by intros []. Qed.

Lemma addGeminiJob_quiet d : quiet (addGeminiJob d).
Proof.
  intros w. destruct (geminiQueue w) as [[jobs c|]|] eqn:Hq.
  - unfold exec, addGeminiJob, try_catch, bind, get_world. rewrite Hq.
    unfold queue_add, bull_add, queue_command, bind, ret, throw. rewrite Hq.
    destruct w as [ms cs us mseq cseq t pf r rf qu g es]; simpl.
    by destruct rf as [|[] rf].
  - unfold exec. rewrite (addGeminiJob_mock w d Hq).
    pose proof (processGeminiJob_frame d w) as (He & _ & _ & Hr & _). unfold exec in *.
    by destruct (processGeminiJob d w) as [[res|e] w'].
  - unfold exec, addGeminiJob, try_catch, bind, get_world, throw. by rewrite Hq.
Qed.

(** [clearChatroomCache] returns normally; it records the invalidation and,
    when Redis is initialised, the [del] it issued. *)
Lemma clearChatroomCache_events uid w :
  exists w' dels,
    clearChatroomCache uid w = (Ok tt, w') /\
    events w' = dels ++ EvInvalidate uid :: events w /\
    match redis w with
    | Some _ => exists ok, dels = [EvRedisDel (chatroom_key uid) ok]
    | None => dels = []
    end.
Proof.
  unfold clearChatroomCache, redis_del, try_catch, bind, getRedis, redis_command, ret,
    throw, emit, modify.
  destruct w as [ms cs us mseq cseq t pf r rf q g es]; simpl.
  destruct r as [r|]; simpl; [|by eexists _, []].
  destruct rf as [|[] rf]; simpl; eexists _, [_]; eauto.
Qed.

Lemma ordered_invalidate_respond uid (up : Prop) code body dels :
  (dels = [] /\ ~ up) \/ (exists ok, dels = [EvRedisDel (chatroom_key uid) ok]) ->
  ordered uid up (EvRespond code body :: dels ++ [EvInvalidate uid]).
Proof.
  intros [[-> Hn]|[ok ->]]; simpl.
  - split; [|by split; [intros []|]]. intros _. split; [set_solver|done].
  - split; [|by split; [intros []|split; [intros []|]]].
    intros _. split; [set_solver|]. intros _. exists ok. set_solver.
Qed.

Lemma clear_then_respond uid code body w :
  exists w' dels,
    (clearChatroomCache uid ;;; respond code body) w = (Ok tt, w') /\
    events w' = (EvRespond code body :: dels ++ [EvInvalidate uid]) ++ events w /\
    ((dels = [] /\ ~ redis w <> None) \/ exists ok, dels = [EvRedisDel (chatroom_key uid) ok]).
Proof.
  destruct (clearChatroomCache_events uid w) as (w1 & dels & Hc & He & Hd).
  unfold bind, respond, emit, modify, exec. rewrite Hc. simpl.
  eexists _, dels. split; [reflexivity|]. simpl. rewrite He, <- app_assoc. split; [done|].
  destruct (redis w); [by right|left]. split; [done|]. by intros H.
Qed.

Lemma ordered_split uid up es later e earlier :
  ordered uid up es -> es = later ++ e :: earlier -> is_success e ->
  EvInvalidate uid ∈ earlier /\ (up -> exists ok, EvRedisDel (chatroom_key uid) ok ∈ earlier).
Proof.
  revert es. induction later as [|x later IH]; intros es Ho -> Hs; simpl in Ho.
  - by apply Ho.
  - destruct Ho as [_ Ho]. by apply (IH _ Ho).
Qed.

(** Run the query at the head of the handler: it throws or it answers,
    and it has emitted nothing. *)
Ltac run_query H :=
  unfold bind at 1;
  match goal with
  | |- context [match ?m ?w with _ => _ end] =>
      let E := fresh "E" in let R := fresh "R" in
      pose proof (H w) as [E R]; unfold exec in E, R;
      let a := fresh "a" in let e := fresh "e" in let w1 := fresh "w" in
      destruct (m w) as [[a|e] w1]; simpl in E, R
  end.

Ltac thrown e E := exists [EvNext e]; simpl; rewrite E; split; [done|by split; [intros []|]].

Ltac refused := eexists [EvRespond _ _]; simpl; split; [reflexivity|]; split; [simpl; lia|done].

Lemma post_chatroom_events req w :
  exists new, events (exec (post_chatroom req) w) = new ++ events w /\
    ordered (req_user_id req) (redis w <> None) new.
Proof.
  unfold post_chatroom, exec, try_catch. cbv zeta.
  destruct (is_falsy _ || _); [refused|].
  destruct (bool_decide _); [refused|].
  run_query (insert_chatroom_quiet (req_user_id req) (trim (default "" (body_title req)))
               (trim_or_null (body_description req))); [|thrown e E].
  match goal with |- context [(clearChatroomCache ?u ;;; respond ?c ?b) w0] =>
    destruct (clear_then_respond u c b w0) as (w' & dels & -> & He & Hd) end.
  simpl. eexists. rewrite He, E. split; [reflexivity|].
  apply ordered_invalidate_respond. by rewrite <- R.
Qed.

Lemma put_chatroom_events req w :
  exists new, events (exec (put_chatroom req) w) = new ++ events w /\
    ordered (req_user_id req) (redis w <> None) new.
Proof.
  unfold put_chatroom, exec, try_catch. cbv zeta.
  destruct (params_id req) as [chatroomId|]; [|refused].
  destruct (is_falsy _ || _); [refused|].
  run_query (update_chatroom_quiet (trim (default "" (body_title req)))
               (trim_or_null (body_description req)) chatroomId (req_user_id req));
    [|thrown e E].
  destruct a as [|room rows].
  { simpl. rewrite E. refused. }
  match goal with |- context [(clearChatroomCache ?u ;;; respond ?c ?b) w0] =>
    destruct (clear_then_respond u c b w0) as (w' & dels & -> & He & Hd) end.
  simpl. eexists. rewrite He, E. split; [reflexivity|].
  apply ordered_invalidate_respond. by rewrite <- R.
Qed.

Lemma delete_chatroom_handler_events req w :
  exists new, events (exec (delete_chatroom_handler req) w) = new ++ events w /\
    ordered (req_user_id req) (redis w <> None) new.
Proof.
  unfold delete_chatroom_handler, exec, try_catch. cbv zeta.
  destruct (params_id req) as [chatroomId|]; [|refused].
  run_query (delete_chatroom_quiet chatroomId (req_user_id req)); [|thrown e E].
  destruct a as [|room rows].
  { simpl. rewrite E. refused. }
  match goal with |- context [(clearChatroomCache ?u ;;; respond ?c ?b) w0] =>
    destruct (clear_then_respond u c b w0) as (w' & dels & -> & He & Hd) end.
  simpl. eexists. rewrite He, E. split; [reflexivity|].
  apply ordered_invalidate_respond. by rewrite <- R.
Qed.

Lemma post_message_events req w :
  exists new, events (exec (post_message req) w) = new ++ events w /\
    ordered (req_user_id req) (redis w <> None) new.
Proof.
  unfold post_message, exec, try_catch. cbv zeta.
  destruct (params_id req) as [chatroomId|]; [|refused].
  destruct (is_falsy _ || _); [refused|].
  run_query (select_chatroom_quiet chatroomId (req_user_id req)); [|thrown e E].
  destruct a as [|room rows].
  { simpl. rewrite E. refused. }
  run_query (insert_message_quiet chatroomId (req_user_id req)
               (trim (default "" (body_content req))) user completed);
    [|thrown e (eq_trans E0 E)].
  run_query (insert_message_quiet chatroomId (req_user_id req)
               "Processing your request..." ai pending);
    [|thrown e (eq_trans E1 (eq_trans E0 E))].
  run_query (addGeminiJob_quiet (JobData (msg_id a0) chatroomId (req_user_id req)
               (trim (default "" (body_content req)))));
    [|thrown e (eq_trans E2 (eq_trans E1 (eq_trans E0 E)))].
  run_query (touch_chatroom_quiet chatroomId);
    [|thrown e (eq_trans E3 (eq_trans E2 (eq_trans E1 (eq_trans E0 E))))].
  unfold bind at 1.
  destruct (clearChatroomCache_events (req_user_id req) w4) as (w5 & dels & -> & He & Hd).
  unfold bind at 1, respond, emit, modify. simpl.
  assert (Hw : events w4 = events w) by congruence.
  assert (Hr : redis w4 = redis w) by congruence.
  match goal with |- context [EvRespond 201 ?b] => set (body := b) end.
  assert (Ho : ordered (req_user_id req) (redis w <> None)
                 (EvRespond 201 body :: dels ++ [EvInvalidate (req_user_id req)])).
  { apply ordered_invalidate_respond. rewrite <- Hr.
    destruct (redis w4); [by right|left]. split; [done|]. by intros H. }
  case_decide.
  - match goal with |- context [increment_usage ?u ?x] =>
      pose proof (increment_usage_quiet u x) as [Eu _]; unfold exec in Eu;
      destruct (increment_usage u x) as [[?|e] w6] end; simpl in Eu; simpl.
    + exists (EvRespond 201 body :: dels ++ [EvInvalidate (req_user_id req)]).
      rewrite Eu, He, Hw. split; [|exact Ho]. simpl. by rewrite <- app_assoc.
    + exists (EvNext e :: EvRespond 201 body :: dels ++ [EvInvalidate (req_user_id req)]).
      rewrite Eu, He, Hw. split; [simpl; by rewrite <- app_assoc|].
      split; [intros []|exact Ho].
  - simpl. exists (EvRespond 201 body :: dels ++ [EvInvalidate (req_user_id req)]).
    rewrite He, Hw. split; [|exact Ho]. simpl. by rewrite <- app_assoc.
Qed.

(** User 1 creates a chatroom, then sends a message to chatroom 7. *)
Example mutations_invalidate_then_respond :
  (exists body, events (exec (handler CreateChatroom req_create) w42)
     = [EvRespond 201 body; EvRedisDel "chatrooms:user:1" true; EvInvalidate 1]) /\
  (exists body, events (exec (handler SendMessage req_hi) w42)
     = [EvRespond 201 body; EvRedisDel "chatrooms:user:1" true; EvInvalidate 1]) /\
  (exists body, events (exec (handler DeleteChatroom req_hi) (with_redis_faults [true] w42))
     = [EvRespond 200 body; EvRedisDel "chatrooms:user:1" false; EvInvalidate 1]).
Proof. repeat split; eexists; vm_compute; reflexivity. Qed.



(** * Properties of the rest of the modules *)

(** ** The retry strategies *)

(** X1. The delay between two connection attempts of the queue grows with
    the number of attempts, by 100 ms a time, and stops at 3 s.  The Redis
    client gives up after the third attempt; until then its delay is 50 ms
    a time, so the bound of 2 s in the code is never the one that holds. *)
Theorem retry_delays_are_bounded (times times' : Z) :
  (0 <= times)%Z ->
  (0 <= queue_retryStrategy times <= 3000)%Z /\
  (times <= times' -> queue_retryStrategy times <= queue_retryStrategy times')%Z /\
  (30 <= times -> queue_retryStrategy times = 3000)%Z /\
  (times < 30 -> queue_retryStrategy times = times * 100)%Z /\
  (redis_retryStrategy times = None <-> 3 < times)%Z /\
  (forall delay, redis_retryStrategy times = Some delay ->
     delay = (times * 50)%Z /\ (delay <= 150)%Z).
Proof.
  intros H0. unfold queue_retryStrategy, redis_retryStrategy.
  split; [lia|]. split; [lia|]. split; [lia|]. split; [lia|]. split.
  - case_decide; split; (done || lia || discriminate).
  - intros delay. case_decide; [discriminate|]. intros [= <-]. lia.
Qed.

Lemma retry_delays_are_bounded_witness :
  queue_retryStrategy 7 = 700%Z /\ redis_retryStrategy 4 = None.
Proof.
  pose proof (retry_delays_are_bounded 7 7 ltac:(lia)) as (_ & _ & _ & H & _).
  pose proof (retry_delays_are_bounded 4 4 ltac:(lia)) as (_ & _ & _ & _ & H4 & _).
  split; [rewrite H; lia|apply H4; lia].
Defined.

(** ** The error handler *)

Lemma js_defined_stack_absent props :
  (forall kv, kv ∈ props -> kv.1 <> "stack") -> js_get "stack" (js_defined props) = None.
Proof.
  unfold js_defined, js_object, js_get.
  assert (Hgen : forall (l : list (string * jsval)) acc,
            js_lookup "stack" acc = None -> (forall kv, kv ∈ l -> kv.1 <> "stack") ->
            js_lookup "stack" (foldl (fun o kv => js_set kv.1 kv.2 o) acc l) = None).
  { induction l as [|[k v] l IH]; intros acc Ha Hl; [done|]. simpl. apply IH.
    - assert (Hk : k <> "stack") by (apply (Hl (k, v)); left).
      clear -Ha Hk. induction acc as [|[k' v'] acc IHa]; simpl in *.
      + by rewrite decide_False.
      + destruct (decide (k' = k)) as [->|Hne]; simpl.
        * rewrite decide_False by done. by rewrite decide_False in Ha by done.
        * destruct (decide (k' = "stack")); [done|]. by apply IHa.
    - intros kv Hkv. apply Hl. by right. }
  intros Hp. apply Hgen; [done|].
  intros [k v] Hkv. apply list_elem_of_omap in Hkv as ([k0 [v0|]] & Hin & Heq); simpl in *;
    [|discriminate]. injection Heq as <- <-. by apply (Hp _ Hin).
Qed.

(** X2. The error handler answers an error with at most one response
    and changes nothing else.  When no response was sent yet, it sends
    exactly one: a response with status 500 carries the fixed texts
    'Internal Server Error' and 'Something went wrong', never the message of
    the error, and outside development mode no response carries the stack
    of the error.  When the response of the request was sent already, as
    after the 201 of [POST /chatroom/:id/message] whose usage count could
    not be written, the handler sends nothing: its [res.json] throws. *)
Theorem errorHandler_hides_internals development error w :
  (exists code body,
     errorHandler development false error w
       = (Ok tt, with_events (EvRespond code body :: events w) w) /\
     (code = 500%Z ->
        js_get "error" body = Some (JStr "Internal Server Error") /\
        js_get "message" body = Some (JStr "Something went wrong")) /\
     (development = false -> js_get "stack" body = None)) /\
  errorHandler development true error w = (Throw HeadersSent, w).
Proof.
  split.
  - unfold errorHandler, send, respond, emit, modify.
    destruct (String.prefix "Stripe" (default "" (err_type error)));
      repeat case_decide; (eexists _, _; split; [reflexivity|]); cbv zeta;
      (split; [intros Hc; try discriminate Hc; try contradiction;
               try (destruct development; [destruct (err_stack error)|]; split; reflexivity)
              |intros Hd; try reflexivity; subst development; rewrite ?app_nil_r;
               apply js_defined_stack_absent; intros kv Hkv;
               repeat (apply elem_of_cons in Hkv as [->|Hkv]; [simpl; discriminate|]);
               by apply elem_of_nil in Hkv]).
  - unfold errorHandler, send, throw.
    destruct (String.prefix "Stripe" (default "" (err_type error)));
      repeat case_decide; reflexivity.
Qed.

(** The usage count cannot be written after a message was answered 201:
    the handler calls [next(error)], and the error handler, called on the
    response that was sent, sends no second one. *)
Example errorHandler_after_the_reply :
  let w := with_pool_faults [false; false; false; false; false; false; false; true] w42 in
  (exists body, events (exec (post_message req_hi) w)
     = [EvNext StoreError; EvRespond 201 body; EvRedisDel "chatrooms:user:1" true;
        EvInvalidate 1]) /\
  exec (post_message req_hi ;;;
        errorHandler false true (JsError (Some "error") (Some "connection terminated")
                                   None None None None None None)) w
    = exec (post_message req_hi) w.
Proof. split; [eexists|]; vm_compute; reflexivity. Qed.

(** ** The other calls of the model *)

Lemma string_length_app (s1 s2 : string) :
  String.length (s1 +:+ s2) = (String.length s1 + String.length s2)%nat.
Proof. induction s1 as [|c s1 IH]; simpl; [done|]. by rewrite IH. Qed.

Lemma string_length_substring (m : nat) (s : string) :
  String.length (String.substring 0 m s) = (m `min` String.length s)%nat.
Proof.
  revert s. induction m as [|m IH]; intros [|c s]; simpl; try done. by rewrite IH.
Qed.

(** X3. [generateChatroomTitle] never throws and leaves the world alone.
    When the model throws the answer is 'New Conversation'.  For a text
    of ASCII characters the answer is the trimmed text when that has at
    most 50 characters; a longer one is cut to its first 50 characters
    followed by '...', 53 characters in all. *)
Theorem generateChatroomTitle_is_bounded firstMessage w :
  exists title,
    generateChatroomTitle firstMessage w = (Ok title, w) /\
    match generateContent w (title_prompt firstMessage) with
    | Throw _ => title = "New Conversation"
    | Ok text =>
        ascii_only text = true ->
        (String.length title <= 53)%nat /\
        if decide (50 < String.length (trim text))%nat
        then title = String.substring 0 50 (trim text) +:+ "..." /\ String.length title = 53%nat
        else title = trim text
    end.
Proof.
  unfold generateChatroomTitle, try_catch, bind, call_model, ret.
  destruct (generateContent w (title_prompt firstMessage)) as [text|e]; simpl.
  - case_decide; eexists; (split; [reflexivity|]); intros _.
    + rewrite string_length_app, string_length_substring.
      change (String.length "...") with 3%nat.
      split; [lia|]. split; [done|lia].
    + split; [lia|done].
  - eexists. split; [reflexivity|done].
Qed.

Example generateChatroomTitle_cuts_at_fifty :
  eval (generateChatroomTitle "Hi")
    (with_generateContent
       (fun _ => Ok "  A very long title that certainly has more than fifty characters in it ") w42)
  = Ok "A very long title that certainly has more than fif...".
Proof. vm_compute. reflexivity. Qed.

Lemma lower_ascii_idemp c : lower_ascii (lower_ascii c) = lower_ascii c.
Proof. destruct c as [[] [] [] [] [] [] [] []]; reflexivity. Qed.

Lemma toLowerCase_idemp s : toLowerCase (toLowerCase s) = toLowerCase s.
Proof. induction s as [|c s IH]; simpl; [done|]. by rewrite lower_ascii_idemp, IH. Qed.

(** X4. [analyzeSentiment] and [summarizeConversation] never throw and
    leave the world alone.  When the model throws they answer 'neutral'
    and 'Unable to generate summary at this time.'.  Otherwise the summary
    is the text as it came, and for a text of ASCII characters the
    sentiment is the text trimmed and in lower case: it holds no capital
    letter, and it is whatever word the model gave. *)
Theorem auxiliary_calls_absorb_errors message (messages : list history_row) w :
  (exists s,
     analyzeSentiment message w = (Ok s, w) /\
     match generateContent w (sentiment_prompt message) with
     | Ok text => ascii_only text = true -> s = toLowerCase (trim text) /\ toLowerCase s = s
     | Throw _ => s = "neutral"
     end) /\
  (exists s,
     summarizeConversation messages w = (Ok s, w) /\
     match generateContent w (summary_prompt messages) with
     | Ok text => s = text
     | Throw _ => s = "Unable to generate summary at this time."
     end).
Proof.
  unfold analyzeSentiment, summarizeConversation, try_catch, bind, call_model, ret.
  split.
  - destruct (generateContent w (sentiment_prompt message)); eexists; split; try done.
    intros _. split; [done|apply toLowerCase_idemp].
  - destruct (generateContent w (summary_prompt messages)); eexists; by split.
Qed.

(** The model answers in capitals and with a word outside the three. *)
Example analyzeSentiment_any_word :
  eval (analyzeSentiment "Hi") (with_generateContent (fun _ => Ok " MIXED ") w42) = Ok "mixed".
Proof. vm_compute. reflexivity. Qed.

(** ** The rate limiter *)

Section rate_limiter_facts.
Variable iso_date : Z -> string.

(** The limiter on a basic user whose [last_usage_reset] is not today's
    string: the count is reset first. *)
Lemma rateLimiter_resets (u : auth_user) w :
  au_subscription_tier u = "basic" ->
  differs_from (au_last_usage_reset u) (iso_date (now w)) ->
  rateLimiter iso_date (Some u) w
  = match pool_faults w with
    | true :: fs =>
        (Ok Answered,
         with_events (EvRespond 500 (js_object [("error", JStr "Internal server error")])
                        :: events w) (with_pool_faults fs w))
    | _ =>
        (Ok (Passed (Some (AuthUser (au_id u) "basic" 0 (ResetDay (iso_date (now w)))))),
         with_usage (alter (fun _ => 0%Z) (au_id u)) (with_pool_faults (drop 1 (pool_faults w)) w))
    end.
Proof.
  intros Ht Hd.
  unfold rateLimiter, reset_usage, pool_query, try_catch, bind, get_world, ret, respond, emit,
    modify.
  rewrite (decide_True _ _ Ht), (decide_True _ _ Hd). rewrite Ht.
  destruct w as [ms cs us mseq cseq t pf r rf q g es]; simpl.
  destruct pf as [|[] pf]; simpl; reflexivity.
Qed.

Lemma from_row_differs (u : auth_user) today : from_row u -> differs_from (au_last_usage_reset u) today.
Proof. unfold from_row. by destruct (au_last_usage_reset u). Qed.

(** X5. The rate limiter on the user that the authentication loads.
    The limiter never throws.  A user of another tier passes without a
    query.  For a basic user, [last_usage_reset] comes from the row as a
    [Date] or [null] and is never strictly equal to the string of today, so
    the count is reset on every request: when the store answers, the
    stored count becomes 0 and the user passes with count 0, whatever the
    count was; when the store rejects the reset, the answer is 500.  The
    answer 429 is given to no such user: it needs a user object that
    already holds the string of today. *)
Theorem rateLimiter_cases (u : auth_user) w :
  let today := iso_date (now w) in
  (exists p, eval (rateLimiter iso_date (Some u)) w = Ok p) /\
  (au_subscription_tier u <> "basic" ->
     rateLimiter iso_date (Some u) w = (Ok (Passed (Some u)), w)) /\
  (au_subscription_tier u = "basic" -> from_row u -> store_answers 1 w ->
     eval (rateLimiter iso_date (Some u)) w
       = Ok (Passed (Some (AuthUser (au_id u) "basic" 0 (ResetDay today)))) /\
     usage (exec (rateLimiter iso_date (Some u)) w) = alter (fun _ => 0%Z) (au_id u) (usage w) /\
     events (exec (rateLimiter iso_date (Some u)) w) = events w) /\
  (au_subscription_tier u = "basic" -> from_row u -> head (pool_faults w) = Some true ->
     eval (rateLimiter iso_date (Some u)) w = Ok Answered /\
     usage (exec (rateLimiter iso_date (Some u)) w) = usage w /\
     events (exec (rateLimiter iso_date (Some u)) w)
       = EvRespond 500 (js_object [("error", JStr "Internal server error")]) :: events w) /\
  (forall body,
     events (exec (rateLimiter iso_date (Some u)) w) = EvRespond 429 body :: events w ->
     au_subscription_tier u = "basic" /\ au_last_usage_reset u = ResetDay today /\
     (5 <= au_daily_usage_count u)%Z /\ ~ from_row u).
Proof.
  cbv zeta. split; [|split; [|split; [|split]]].
  - unfold rateLimiter, reset_usage, pool_query, try_catch, bind, get_world, ret, respond,
      emit, modify, eval.
    destruct w as [ms cs us mseq cseq t pf r rf q g es]; simpl.
    repeat case_decide; simpl; eauto; destruct pf as [|[] pf]; simpl; eauto;
      repeat case_decide; simpl; eauto.
  - intros Ht. unfold rateLimiter, try_catch, bind, get_world, ret.
    by rewrite decide_False.
  - intros Ht Hr Hs. unfold eval, exec, store_answers in *.
    rewrite (rateLimiter_resets u w Ht (from_row_differs u _ Hr)).
    destruct w as [ms cs us mseq cseq t pf r rf q g es]; simpl in *.
    destruct pf as [|[] pf]; simpl in *; decompose_Forall; try discriminate; done.
  - intros Ht Hr Hs. unfold eval, exec in *.
    rewrite (rateLimiter_resets u w Ht (from_row_differs u _ Hr)).
    destruct w as [ms cs us mseq cseq t pf r rf q g es]; simpl in *.
    destruct pf as [|[] pf]; simpl in *; try discriminate; done.
  - intros body. unfold exec.
    destruct (decide (au_subscription_tier u = "basic")) as [Ht|Ht].
    2:{ unfold rateLimiter, try_catch, bind, get_world, ret. rewrite decide_False by done.
        simpl. intros H. apply (f_equal length) in H. simpl in H. lia. }
    destruct (decide (differs_from (au_last_usage_reset u) (iso_date (now w)))) as [Hd|Hd].
    + rewrite (rateLimiter_resets u w Ht Hd).
      destruct w as [ms cs us mseq cseq t pf r rf q g es]; simpl.
      destruct pf as [|[] pf]; simpl; intros H;
        first [discriminate H | apply (f_equal length) in H; simpl in H; lia].
    + unfold rateLimiter, try_catch, bind, get_world, ret, respond, emit, modify.
      rewrite (decide_True _ _ Ht), decide_False by done. simpl.
      assert (Hday : au_last_usage_reset u = ResetDay (iso_date (now w))).
      { destruct (au_last_usage_reset u) as [| |day]; simpl in Hd; try (by destruct Hd).
        f_equal. by destruct (decide (day = iso_date (now w))). }
      case_decide; simpl.
      * intros _. split; [done|]. split; [done|]. split; [done|].
        unfold from_row. rewrite Hday. tauto.
      * intros He. apply (f_equal length) in He; simpl in He. lia.
Qed.

(** X6. The daily limit does not stop a message.  Whatever count a
    basic user has when the authentication loads the row, also 5 or more,
    with the store answering the reset the route resets the stored count to
    0 and runs the handler of [POST /chatroom/:id/message]. *)
Theorem daily_limit_is_not_enforced (u : auth_user) id content w :
  au_subscription_tier u = "basic" ->
  from_row u ->
  store_answers 1 w ->
  message_route iso_date (Some u) id content w
  = post_message (Request (au_id u) "basic" id None None content)
      (with_usage (alter (fun _ => 0%Z) (au_id u))
         (with_pool_faults (drop 1 (pool_faults w)) w)).
Proof.
  intros Ht Hr Hs. unfold message_route, bind.
  rewrite (rateLimiter_resets u w Ht (from_row_differs u _ Hr)).
  unfold store_answers in Hs.
  destruct (pool_faults w) as [|[] pf]; simpl in *; decompose_Forall; try discriminate; done.
Qed.
End rate_limiter_facts.

Lemma rateLimiter_cases_witness :
  eval (rateLimiter (fun _ => "2026-11-02") (Some (AuthUser 1 "basic" 5 (ResetDate 0)))) w42
    = Ok (Passed (Some (AuthUser 1 "basic" 0 (ResetDay "2026-11-02")))).
Proof.
  apply (rateLimiter_cases (fun _ => "2026-11-02") (AuthUser 1 "basic" 5 (ResetDate 0)) w42).
  - reflexivity.
  - exact I.
  - unfold store_answers. simpl. constructor.
Defined.

(** A basic user with count 5 sends a message: it is answered 201. *)
Lemma daily_limit_is_not_enforced_witness :
  exists body,
    events (exec (message_route (fun _ => "2026-11-02")
                    (Some (AuthUser 1 "basic" 5 (ResetDate 0))) (Some 7%Z) (Some "Hi")) w42)
    = [EvRespond 201 body; EvRedisDel "chatrooms:user:1" true; EvInvalidate 1].
Proof.
  unfold exec.
  rewrite (daily_limit_is_not_enforced (fun _ => "2026-11-02")
             (AuthUser 1 "basic" 5 (ResetDate 0)) (Some 7%Z) (Some "Hi") w42);
    [|reflexivity|exact I|unfold store_answers; simpl; constructor].
  eexists. vm_compute. reflexivity.
Defined.

(** The only user object that is stopped holds the string of today. *)
Example rate_limit_needs_a_string :
  events (exec (rateLimiter (fun _ => "2026-11-02")
                  (Some (AuthUser 1 "basic" 5 (ResetDay "2026-11-02")))) w42)
    = [EvRespond 429 (limit_exceeded (AuthUser 1 "basic" 5 (ResetDay "2026-11-02")))].
Proof. vm_compute. reflexivity. Qed.

(** ** The entries of the cache *)

Lemma chatroom_key_inj u u' : chatroom_key u = chatroom_key u' -> u = u'.
Proof.
  unfold chatroom_key. intros H. apply (inj (String.app CHATROOM_CACHE_KEY)) in H.
  by apply (inj pretty) in H.
Qed.

Lemma keys_of_other_entries u u' :
  session_key u' <> chatroom_key u /\ usage_key u' <> chatroom_key u /\
  session_key u' <> usage_key u.
Proof. repeat split; intros H; by injection H. Qed.

Lemma prefix_chatroom_key u : String.prefix CHATROOM_CACHE_KEY (chatroom_key u) = true.
Proof.
  unfold chatroom_key. apply String.prefix_correct.
  generalize (pretty u). intros s. unfold CHATROOM_CACHE_KEY. vm_compute String.length.
  simpl. repeat f_equal. clear. induction s as [|c s IH]; [done|].
  simpl. destruct s; done.
Qed.

(** X7. Invalidation is per user: [clearChatroomCache] of a user never
    throws and leaves every other entry of the cache as it was, the
    chatroom lists of the other users, the sessions and the usage counts;
    when the command is answered the list of the user is gone. *)
Theorem invalidation_is_per_user uid w r :
  redis w = Some r ->
  exists r',
    clearChatroomCache uid w = (Ok tt, exec (clearChatroomCache uid) w) /\
    redis (exec (clearChatroomCache uid) w) = Some r' /\
    (forall k, k <> chatroom_key uid -> r' !! k = r !! k) /\
    (forall u, u <> uid -> r' !! chatroom_key u = r !! chatroom_key u) /\
    (forall u, r' !! session_key u = r !! session_key u /\
               r' !! usage_key u = r !! usage_key u) /\
    (redis_answers 1 w -> r' !! chatroom_key uid = None).
Proof.
  intros Hr.
  assert (Hk : exists r',
    clearChatroomCache uid w = (Ok tt, exec (clearChatroomCache uid) w) /\
    redis (exec (clearChatroomCache uid) w) = Some r' /\
    (forall k, k <> chatroom_key uid -> r' !! k = r !! k) /\
    (redis_answers 1 w -> r' !! chatroom_key uid = None)).
  { unfold redis_answers, exec, clearChatroomCache, redis_del, try_catch, bind, getRedis,
      redis_command, ret, throw, emit, modify.
    destruct w as [ms cs us mseq cseq t pf r0 rf q g es]; simpl in *. subst r0.
    destruct rf as [|[] rf]; simpl; eexists; (split; [reflexivity|]); (split; [reflexivity|]);
      split; try (intros k Hne; by rewrite ?lookup_delete_ne);
      intros H; decompose_Forall; try discriminate; by rewrite lookup_delete_eq. }
  destruct Hk as (r' & He & Hr' & Hother & Hgone). exists r'.
  split; [done|]. split; [done|]. split; [done|]. split; [|split; [|done]].
  - intros u Hu. apply Hother. intros H. by apply chatroom_key_inj in H.
  - intros u. destruct (keys_of_other_entries uid u) as (Hs & Hu & _). by split; apply Hother.
Qed.

Lemma invalidation_is_per_user_witness :
  exists r',
    redis (exec (clearChatroomCache 1)
             (with_redis (Some {[chatroom_key 1 := ("[]", 5000%Z);
                                 chatroom_key 2 := ("[]", 5000%Z)]}) w42)) = Some r' /\
    r' !! chatroom_key 2 = Some ("[]", 5000%Z) /\ r' !! chatroom_key 1 = None.
Proof.
  destruct (invalidation_is_per_user 1
              (with_redis (Some {[chatroom_key 1 := ("[]", 5000%Z);
                                  chatroom_key 2 := ("[]", 5000%Z)]}) w42)
              {[chatroom_key 1 := ("[]", 5000%Z); chatroom_key 2 := ("[]", 5000%Z)]} eq_refl)
    as (r' & _ & Hr & _ & Ho & _ & Hg).
  exists r'. split; [exact Hr|]. split.
  - rewrite (Ho 2%Z) by lia. vm_compute. reflexivity.
  - apply Hg. unfold redis_answers. simpl. constructor.
Defined.

Lemma live_None_of_lookup t (r : gmap string (string * Z)) k :
  r !! k = None -> live t r k = None.
Proof. unfold live. by intros ->. Qed.

(** X8. [clearAllChatroomCache] never throws.  When Redis answers its two
    commands, no key that starts with 'chatrooms:user:' can be read
    afterwards, so the list of every user is gone, and the entries under
    every other key are as they were. *)
Theorem clearAllChatroomCache_clears w r :
  redis w = Some r ->
  eval clearAllChatroomCache w = Ok tt /\
  (redis_answers 2 w ->
   exists r',
     redis (exec clearAllChatroomCache w) = Some r' /\
     (forall k, String.prefix CHATROOM_CACHE_KEY k = true -> live (now w) r' k = None) /\
     (forall u, live (now w) r' (chatroom_key u) = None) /\
     (forall k, String.prefix CHATROOM_CACHE_KEY k = false -> r' !! k = r !! k)).
Proof.
  intros Hr. unfold redis_answers.
  destruct w as [ms cs us mseq cseq t pf r0 rf q g es]; simpl in *. subst r0.
  set (keys := filter (fun k => String.prefix CHATROOM_CACHE_KEY k = true /\ is_Some (live t r k))
                 (map_to_list r).*1).
  assert (Hkeys : forall k, k ∈ keys <->
            String.prefix CHATROOM_CACHE_KEY k = true /\ is_Some (live t r k)).
  { intros k. unfold keys. rewrite list_elem_of_filter. split; [tauto|].
    intros [Hp Hl]. split; [done|]. apply list_elem_of_fmap.
    unfold live in Hl. destruct (r !! k) as [x|] eqn:Hk; [|by destruct Hl].
    exists (k, x). split; [done|]. by apply elem_of_map_to_list. }
  assert (Hdead : forall k, String.prefix CHATROOM_CACHE_KEY k = true -> k ∉ keys ->
            live t r k = None).
  { intros k Hp Hn. destruct (live t r k) eqn:Hl; [|done].
    exfalso. apply Hn, Hkeys. by rewrite Hl. }
  assert (Hclear : forall k, String.prefix CHATROOM_CACHE_KEY k = true ->
            live t (foldr delete r keys) k = None).
  { intros k Hp. destruct (decide (k ∈ keys)) as [Hin|Hn].
    - apply live_None_of_lookup. by apply lookup_foldr_delete.
    - unfold live. rewrite lookup_foldr_delete_not_elem_of by done. by apply Hdead. }
  assert (Hkeep : forall k, String.prefix CHATROOM_CACHE_KEY k = false ->
            foldr delete r keys !! k = r !! k).
  { intros k Hp. apply lookup_foldr_delete_not_elem_of. intros Hin.
    apply Hkeys in Hin as [Hp' _]. congruence. }
  assert (Hempty : keys = [] -> forall k, String.prefix CHATROOM_CACHE_KEY k = true ->
            live t r k = None).
  { intros He k Hp. apply Hdead; [done|]. rewrite He. apply not_elem_of_nil. }
  unfold eval, exec, clearAllChatroomCache, redis_keys, redis_del_all, try_catch, bind, getRedis,
    redis_command, ret, throw, modify. simpl. fold keys.
  destruct rf as [|[] [|[] rf]]; simpl; fold keys;
    destruct (decide (0 < length keys)%nat) as [Hlen|Hlen]; simpl;
    (split; [reflexivity|]); intros H; decompose_Forall; try discriminate;
    eexists; (split; [reflexivity|]);
    try (assert (keys = []) as Hnil by (destruct keys; [done|simpl in Hlen; lia]));
    (split; [|split]); eauto using prefix_chatroom_key.
Qed.

Lemma clearAllChatroomCache_clears_witness :
  eval clearAllChatroomCache
    (with_redis (Some {[chatroom_key 1 := ("[]", 5000%Z); session_key 1 := ("{}", 5000%Z)]}) w42)
  = Ok tt.
Proof.
  apply (clearAllChatroomCache_clears
           (with_redis (Some {[chatroom_key 1 := ("[]", 5000%Z);
                               session_key 1 := ("{}", 5000%Z)]}) w42)
           {[chatroom_key 1 := ("[]", 5000%Z); session_key 1 := ("{}", 5000%Z)]} eq_refl).
Defined.

Example clearAllChatroomCache_keeps_sessions :
  eval (clearAllChatroomCache ;;; redis_keys "")
    (with_redis (Some {[chatroom_key 1 := ("[]", 5000%Z); chatroom_key 2 := ("[]", 5000%Z);
                        session_key 1 := ("{}", 5000%Z)]}) w42)
  = Ok ["session:user:1"].
Proof. vm_compute. reflexivity. Qed.

Section round_trips.
Variable JSON_parse : string -> option jsval.
Variable JSON_stringify : jsval -> string.

(** X9. What is written to the cache is read back.  With Redis answering
    and a value that [JSON.parse] gets back from its [JSON.stringify], a
    chatroom list, a session and a usage count that were set are returned
    by the next read, under the times to live 300 s, 3600 s and 86400 s of
    the code; a read at or after the end of that time is a miss, and so is
    a read of the session after [clearUserSessionCache]. *)
Theorem cache_round_trips (uid : Z) (v : jsval) w r :
  redis w = Some r ->
  redis_answers 3 w ->
  JSON_parse (JSON_stringify v) = Some v ->
  JSON_stringify v <> "" ->
  (eval (setCachedChatrooms JSON_stringify uid v CACHE_TTL ;;;
         getCachedChatrooms JSON_parse uid) w = Ok v /\
   eval (setCachedUserSession JSON_stringify uid v None ;;;
         getCachedUserSession JSON_parse uid) w = Ok v /\
   eval (setCachedDailyUsage JSON_stringify uid v None ;;;
         getCachedDailyUsage JSON_parse uid) w = Ok v) /\
  (forall t, (now w + 300 * 1000 <= t)%Z ->
     eval (getCachedChatrooms JSON_parse uid)
          (with_now t (exec (setCachedChatrooms JSON_stringify uid v CACHE_TTL) w)) = Ok JNull) /\
  (forall t, (now w + 3600 * 1000 <= t)%Z ->
     eval (getCachedUserSession JSON_parse uid)
          (with_now t (exec (setCachedUserSession JSON_stringify uid v None) w)) = Ok JNull) /\
  (forall t, (now w + 86400 * 1000 <= t)%Z ->
     eval (getCachedDailyUsage JSON_parse uid)
          (with_now t (exec (setCachedDailyUsage JSON_stringify uid v None) w)) = Ok JNull) /\
  eval (setCachedUserSession JSON_stringify uid v None ;;;
        clearUserSessionCache uid ;;;
        getCachedUserSession JSON_parse uid) w = Ok JNull.
Proof.
  intros Hr Ha Hp Hne. unfold redis_answers in Ha.
  destruct (JSON_stringify v) as [|a s] eqn:Hs; [done|].
  destruct w as [ms cs us mseq cseq t0 pf r0 rf q g es]; simpl in *. subst r0.
  unfold eval, exec, setCachedChatrooms, getCachedChatrooms, setCachedUserSession,
    getCachedUserSession, setCachedDailyUsage, getCachedDailyUsage, clearUserSessionCache,
    redis_setex, redis_get, redis_del, redis_command, getRedis, try_catch, bind, ret, throw,
    emit, modify, CACHE_TTL.
  destruct rf as [|[] [|[] [|[] rf]]]; simpl in *; decompose_Forall; try discriminate;
    rewrite ?Hs; simpl; rewrite ?lookup_insert_eq, ?lookup_delete_eq; simpl;
    rewrite ?(decide_True (P := (t0 < t0 + _)%Z)) by lia; rewrite ?Hp;
    (split; [by repeat split|]);
    repeat split; try done; intros t Ht; by rewrite decide_False by lia.
Qed.
End round_trips.

Lemma cache_round_trips_witness :
  eval (setCachedUserSession (fun _ => "[]") 1 (JArr []) None ;;;
        getCachedUserSession (fun s => if decide (s = "[]") then Some (JArr []) else None) 1) w42
  = Ok (JArr []).
Proof.
  apply (cache_round_trips (fun s => if decide (s = "[]") then Some (JArr []) else None)
           (fun _ => "[]") 1 (JArr []) w42 ∅).
  - reflexivity.
  - unfold redis_answers. simpl. constructor.
  - reflexivity.
  - discriminate.
Defined.

(** ** The list of chatrooms through the cache *)

Section chatroom_list_facts.
Variable JSON_parse : string -> option jsval.
Variable JSON_stringify : jsval -> string.




End chatroom_list_facts.

(** The list of user 1 in [w42]. *)
Example chatroom_list_of_user_1 :
  chatroom_json <$> chatroom_list 1 (chatrooms w42) (messages w42)
  = [js_object [("id", JNum 7); ("title", JStr "room"); ("description", JNull);
                ("created_at", JNum 0); ("updated_at", JNum 0);
                ("message_count", JNum 2); ("last_message_at", JNum 5)]].
Proof. vm_compute. reflexivity. Qed.



(** ** The rows of the list *)

Global Instance recently_updated_first_trans : Transitive recently_updated_first.
Proof. unfold recently_updated_first. intros a b c. lia. Qed.

Global Instance recently_updated_first_total : Total recently_updated_first.
Proof. unfold recently_updated_first. intros a b. lia. Qed.

Lemma max_created_at_bounds (ms : list message) :
  match max_created_at ms with
  | None => ms = []
  | Some t => (forall m, m ∈ ms -> (msg_created_at m <= t)%Z) /\
              exists m, m ∈ ms /\ msg_created_at m = t
  end.
Proof.
  destruct ms as [|m0 ms]; [done|]. unfold max_created_at.
  induction ms as [|m ms IH] in m0 |- *; [simpl|rewrite fmap_cons; cbn [foldr]].
  - split; [|exists m0; split; [left|done]].
    intros m Hm. apply list_elem_of_singleton in Hm as ->. lia.
  - destruct (IH m0) as [Hle (mx & Hin & Hmx)]. split.
    + intros m' Hm'. apply elem_of_cons in Hm' as [->|Hm'].
      * pose proof (Hle m0 ltac:(left)). lia.
      * apply elem_of_cons in Hm' as [->|Hm']; [lia|].
        pose proof (Hle m' ltac:(by right)). lia.
    + destruct (Z.max_spec (msg_created_at m)
                  (foldr Z.max (msg_created_at m0) (msg_created_at <$> ms))) as [[_ ->]|[_ ->]].
      * exists mx. split; [|done].
        apply elem_of_cons in Hin as [->|Hin]; [left|right; by right].
      * exists m. split; [right; left|done].
Qed.

(** X12. The list query.  The rows of [GET /chatroom] are the chatrooms of
    the user and no others, each once per row of the table, the most
    recently updated first.  A row counts the messages of its chatroom;
    its [last_message_at] is the creation time of one of them and no
    earlier than any, and is null exactly for a chatroom without
    messages. *)
Theorem chatroom_list_rows uid (cs : list chatroom) (ms : list message) :
  let rows := chatroom_list uid cs ms in
  row_chatroom <$> rows ≡ₚ filter (fun c => room_user_id c = uid) cs /\
  StronglySorted recently_updated_first (row_chatroom <$> rows) /\
  (forall row, row ∈ rows ->
     let mine := room_messages (room_id (row_chatroom row)) ms in
     room_user_id (row_chatroom row) = uid /\
     row_message_count row = length mine /\
     match row_last_message_at row with
     | None => mine = []
     | Some t => (forall m, m ∈ mine -> (msg_created_at m <= t)%Z) /\
                 exists m, m ∈ mine /\ msg_created_at m = t
     end).
Proof.
  cbv zeta. unfold chatroom_list.
  rewrite <- list_fmap_compose.
  assert (Hid : row_chatroom ∘ chatroom_row_of ms = id) by done.
  rewrite Hid, list_fmap_id.
  split; [apply merge_sort_Permutation|].
  split; [apply StronglySorted_merge_sort; apply _|].
  intros row Hrow. apply list_elem_of_fmap in Hrow as (c & -> & Hc).
  rewrite merge_sort_Permutation in Hc. apply list_elem_of_filter in Hc as [Hu _].
  simpl. split; [done|]. split; [done|]. apply max_created_at_bounds.
Qed.

(** ** The cache after a mutation *)


Lemma pool_query_still {A} (q : world -> result A * world) :
  (forall w, events (q w).2 = events w /\ redis (q w).2 = redis w /\
             redis_faults (q w).2 = redis_faults w) ->
  still (pool_query q).
Proof.
  intros Hq w. unfold exec, pool_query.
  destruct w as [ms cs us mseq cseq t pf r rf qu g es]; simpl.
  destruct pf as [|[] pf]; [apply (Hq (World _ _ _ _ _ _ _ _ _ _ _ _))|done|].
  apply (Hq (World _ _ _ _ _ _ _ _ _ _ _ _)).
Qed.

Lemma insert_chatroom_still uid title description : still (insert_chatroom uid title description).
Proof. apply pool_query_still. by intros []. Qed.

Lemma select_chatroom_still i uid : still (select_chatroom i uid).
Proof. apply pool_query_still. by intros []. Qed.

Lemma update_chatroom_still title description i uid :
  still (update_chatroom title description i uid).
Proof. apply pool_query_still. by intros []. Qed.

Lemma touch_chatroom_still i : still (touch_chatroom i).
Proof. apply pool_query_still. by intros []. Qed.

Lemma delete_chatroom_still i uid : still (delete_chatroom i uid).
Proof.
  apply pool_query_still. intros w.
  destruct (filter (owned_by i uid) (chatrooms w)); by destruct w.
Qed.

Lemma insert_message_still room uid text ty s : still (insert_message room uid text ty s).
Proof. apply pool_query_still. by intros []. Qed.

Lemma increment_usage_still uid : still (increment_usage uid).
Proof. apply pool_query_still. by intros []. Qed.

(** Enqueueing emits nothing and leaves the cache alone; it sends at most
    one command to Redis. *)
Lemma addGeminiJob_cache d w :
  events (exec (addGeminiJob d) w) = events w /\
  redis (exec (addGeminiJob d) w) = redis w /\
  (redis_answers 2 w -> redis_answers 1 (exec (addGeminiJob d) w)).
Proof.
  destruct (addGeminiJob_quiet d w) as [He Hr]. split; [done|]. split; [done|].
  unfold redis_answers. destruct (geminiQueue w) as [[jobs c|]|] eqn:Hq.
  - unfold exec, addGeminiJob, try_catch, bind, get_world. rewrite Hq.
    unfold queue_add, bull_add, queue_command, bind, ret, throw. rewrite Hq.
    destruct w as [ms cs us mseq cseq t pf r rf qu g es]; simpl.
    destruct rf as [|[] [|? rf]]; simpl; intros H; decompose_Forall; repeat constructor; done.
  - unfold exec. rewrite (addGeminiJob_mock w d Hq).
    pose proof (processGeminiJob_frame d w) as (_ & _ & _ & _ & Hf & _). unfold exec in *.
    destruct (processGeminiJob d w) as [[res|e] w']; simpl in *; rewrite Hf;
      destruct (redis_faults w) as [|? [|? ?]]; simpl; intros H; decompose_Forall;
      repeat constructor; done.
  - unfold exec, addGeminiJob, try_catch, bind, get_world, throw. rewrite Hq. simpl.
    destruct (redis_faults w) as [|? [|? ?]]; simpl; intros H; decompose_Forall;
      repeat constructor; done.
Qed.

(** [clearChatroomCache] when Redis answers: the key is deleted. *)
Lemma clearChatroomCache_answered uid w r :
  redis w = Some r -> redis_answers 1 w ->
  exists w',
    clearChatroomCache uid w = (Ok tt, w') /\
    events w' = [EvRedisDel (chatroom_key uid) true; EvInvalidate uid] ++ events w /\
    redis w' = Some (delete (chatroom_key uid) r).
Proof.
  unfold redis_answers, clearChatroomCache, redis_del, try_catch, bind, getRedis,
    redis_command, ret, throw, emit, modify.
  destruct w as [ms cs us mseq cseq t pf r0 rf q g es]; simpl. intros -> H.
  destruct rf as [|[] rf]; simpl in *; decompose_Forall; try discriminate; eexists; done.
Qed.

Lemma redis_answers_weaken w w' :
  redis_faults w' = redis_faults w -> redis_answers 2 w -> redis_answers 1 w'.
Proof.
  unfold redis_answers. intros ->.
  destruct (redis_faults w) as [|? [|? ?]]; simpl; intros H; decompose_Forall;
    repeat constructor; done.
Qed.

(** Run the query at the head of the handler, keeping track of Redis. *)
Ltac run_still H :=
  unfold bind at 1;
  match goal with
  | |- context [match ?m ?w with _ => _ end] =>
      let E := fresh "E" in let R := fresh "R" in let F := fresh "F" in
      pose proof (H w) as (E & R & F); unfold exec in E, R, F;
      let a := fresh "a" in let e := fresh "e" in let w1 := fresh "w" in
      destruct (m w) as [[a|e] w1]; simpl in E, R, F
  end.

(** The handler ended without a success response and left the cache. *)
Ltac left_alone := left; simpl; split; [congruence|]; intros x Hx;
  repeat (apply elem_of_cons in Hx as [->|Hx]; [simpl; try lia; tauto|]);
  by apply elem_of_nil in Hx.

Ltac refused_here :=
  eexists [_]; simpl; split; [apply (f_equal2 cons); [reflexivity|congruence]|left_alone].
Ltac threw e := exists [EvNext e]; simpl; split; [congruence|left_alone].

(** The handler deleted the key and then responded; [later] came after. *)
Ltac deleted later :=
  right; split; [congruence|]; exists later; eexists _, _; split; [reflexivity|];
  intros x Hx; repeat (apply elem_of_cons in Hx as [->|Hx]; [simpl; tauto|]);
  by apply elem_of_nil in Hx.

Lemma handler_cache op req w r :
  redis w = Some r -> redis_answers 2 w ->
  cache_after (req_user_id req) r w (exec (handler op req) w).
Proof.
  intros Hr Ha.
  assert (Ha1 : redis_answers 1 w) by (by apply (redis_answers_weaken w w)).
  destruct op; simpl.
  - unfold post_chatroom, exec, try_catch. cbv zeta.
    destruct (is_falsy _ || _); [refused_here|].
    destruct (bool_decide _);
      [refused_here|].
    run_still (insert_chatroom_still (req_user_id req) (trim (default "" (body_title req)))
                 (trim_or_null (body_description req))); [|threw e].
    unfold bind at 1.
    destruct (clearChatroomCache_answered (req_user_id req) w0 r) as (w' & -> & He & Hd);
      [congruence|by apply (redis_answers_weaken w)|].
    unfold respond, emit, modify. simpl. eexists (_ :: _ :: [_]). simpl. rewrite He, E.
    split; [reflexivity|]. deleted (@nil event).
  - unfold put_chatroom, exec, try_catch. cbv zeta.
    destruct (params_id req) as [chatroomId|];
      [|refused_here].
    destruct (is_falsy _ || _); [refused_here|].
    run_still (update_chatroom_still (trim (default "" (body_title req)))
                 (trim_or_null (body_description req)) chatroomId (req_user_id req));
      [|threw e].
    destruct a as [|room rows]; [refused_here|].
    unfold bind at 1.
    destruct (clearChatroomCache_answered (req_user_id req) w0 r) as (w' & -> & He & Hd);
      [congruence|by apply (redis_answers_weaken w)|].
    unfold respond, emit, modify. simpl. eexists (_ :: _ :: [_]). simpl. rewrite He, E.
    split; [reflexivity|]. deleted (@nil event).
  - unfold delete_chatroom_handler, exec, try_catch. cbv zeta.
    destruct (params_id req) as [chatroomId|];
      [|refused_here].
    run_still (delete_chatroom_still chatroomId (req_user_id req)); [|threw e].
    destruct a as [|room rows]; [refused_here|].
    unfold bind at 1.
    destruct (clearChatroomCache_answered (req_user_id req) w0 r) as (w' & -> & He & Hd);
      [congruence|by apply (redis_answers_weaken w)|].
    unfold respond, emit, modify. simpl. eexists (_ :: _ :: [_]). simpl. rewrite He, E.
    split; [reflexivity|]. deleted (@nil event).
  - unfold post_message, exec, try_catch. cbv zeta.
    destruct (params_id req) as [chatroomId|];
      [|refused_here].
    destruct (is_falsy _ || _);
      [refused_here|].
    run_still (select_chatroom_still chatroomId (req_user_id req)); [|threw e].
    destruct a as [|room rows]; [refused_here|].
    run_still (insert_message_still chatroomId (req_user_id req)
                 (trim (default "" (body_content req))) user completed); [|threw e].
    run_still (insert_message_still chatroomId (req_user_id req)
                 "Processing your request..." ai pending); [|threw e].
    assert (Ha2 : redis_answers 2 w2).
    { unfold redis_answers in *. by rewrite F1, F0, F. }
    unfold bind at 1.
    match goal with |- context [addGeminiJob ?d w2] =>
      pose proof (addGeminiJob_cache d w2) as (E2 & R2 & F2); unfold exec in E2, R2, F2;
      destruct (addGeminiJob d w2) as [[job|e] w3]; simpl in E2, R2, F2 end;
      [|threw e].
    run_still (touch_chatroom_still chatroomId); [|threw e].
    unfold bind at 1.
    destruct (clearChatroomCache_answered (req_user_id req) w4 r) as (w' & -> & He & Hd);
      [congruence| |].
    { unfold redis_answers in *. rewrite F3. by apply F2. }
    unfold bind at 1, respond, emit, modify. simpl.
    assert (Hw : events w4 = events w) by congruence.
    case_decide.
    + match goal with |- context [increment_usage ?u ?x] =>
        pose proof (increment_usage_still u x) as (Eu & Ru & _); unfold exec in Eu, Ru;
        destruct (increment_usage u x) as [[?|e] w6] end; simpl in Eu, Ru; simpl.
      * eexists (_ :: _ :: [_]). simpl. rewrite Eu, He, Hw. split; [reflexivity|].
        deleted (@nil event).
      * eexists (_ :: _ :: _ :: [_]). simpl. rewrite Eu, He, Hw.
        split; [reflexivity|]. deleted [EvNext e].
    + simpl. eexists (_ :: _ :: [_]). simpl. rewrite He, Hw. split; [reflexivity|].
      deleted (@nil event).
Qed.

Lemma success_position (later later' : list event) e earlier x rest :
  later ++ e :: earlier = later' ++ x :: rest ->
  is_success e ->
  (forall y, y ∈ later' -> ~ is_success y) ->
  (forall y, y ∈ rest -> ~ is_success y) ->
  earlier = rest.
Proof.
  revert later'. induction later as [|a later IH]; intros [|b later'] He Hs Hl Hr;
    simpl in He; injection He as -> He.
  - done.
  - destruct (Hl b); [left|done].
  - destruct (Hr e); [|done]. rewrite <- He. set_solver.
  - apply (IH later' He Hs); [|done]. intros y Hy. apply Hl. by right.
Qed.

(** C5, as amended.  In every run of a chatroom-mutating handler (create,
    update, delete chatroom, send message), a success response is sent only
    after [clearChatroomCache] was called for the user of the request, and,
    when Redis is initialised, after the [del] of that user's
    chatroom-list key was issued.  When Redis answers, that [del] has
    succeeded before the response: what precedes the response is the
    invalidation and the answered [del], and the run ends with the key
    deleted from the cache.  (A [del] that Redis rejects is swallowed: the
    response is sent all the same.) *)
Theorem invalidate_before_success op req w later e earlier :
  events (exec (handler op req) w) = later ++ e :: earlier ++ events w ->
  is_success e ->
  EvInvalidate (req_user_id req) ∈ earlier /\
  (redis w <> None -> exists ok, EvRedisDel (chatroom_key (req_user_id req)) ok ∈ earlier) /\
  (forall r, redis w = Some r -> redis_answers 2 w ->
     earlier = [EvRedisDel (chatroom_key (req_user_id req)) true;
                EvInvalidate (req_user_id req)] /\
     redis (exec (handler op req) w) = Some (delete (chatroom_key (req_user_id req)) r) /\
     delete (chatroom_key (req_user_id req)) r !! chatroom_key (req_user_id req) = None).
Proof.
  intros He Hs.
  assert (Hn : exists new, events (exec (handler op req) w) = new ++ events w /\
                 ordered (req_user_id req) (redis w <> None) new).
  { destruct op; simpl.
    - apply post_chatroom_events.
    - apply put_chatroom_events.
    - apply delete_chatroom_handler_events.
    - apply post_message_events. }
  replace (later ++ e :: earlier ++ events w) with ((later ++ e :: earlier) ++ events w) in He
    by (by rewrite <- app_assoc).
  destruct Hn as (new & Hn & Ho).
  assert (Hnew : new = later ++ e :: earlier).
  { rewrite Hn in He. by apply app_inv_tail in He. }
  destruct (ordered_split _ _ new later e earlier Ho Hnew Hs) as [Hi Hd].
  split; [done|]. split; [done|].
  intros r Hr Ha.
  destruct (handler_cache op req w r Hr Ha) as (new' & Hn' & Hc).
  assert (new' = later ++ e :: earlier) as ->.
  { rewrite Hn' in He. by apply app_inv_tail in He. }
  destruct Hc as [[_ Hno]|(Hdel & later' & code & body & Hl & Hno)].
  - destruct (Hno e); [set_solver|done].
  - split; [|split; [done|apply lookup_delete_eq]].
    apply (success_position later later' e earlier (EvRespond code body) _ Hl Hs Hno).
    intros y Hy. repeat (apply elem_of_cons in Hy as [->|Hy]; [simpl; tauto|]).
    by apply elem_of_nil in Hy.
Qed.

Lemma invalidate_before_success_witness :
  events (exec (handler CreateChatroom req_create) w42)
    = [] ++ EvRespond 201 created_body
         :: [EvRedisDel "chatrooms:user:1" true; EvInvalidate 1] ++ events w42 /\
  is_success (EvRespond 201 created_body) /\
  EvInvalidate 1 ∈ [EvRedisDel "chatrooms:user:1" true; EvInvalidate 1].
Proof.
  assert (He : events (exec (handler CreateChatroom req_create) w42)
                 = [] ++ EvRespond 201 created_body
                      :: [EvRedisDel "chatrooms:user:1" true; EvInvalidate 1] ++ events w42)
    by (vm_compute; reflexivity).
  assert (Hs : is_success (EvRespond 201 created_body)) by (simpl; lia).
  split; [exact He|]. split; [exact Hs|].
  apply (invalidate_before_success CreateChatroom req_create w42 []
           (EvRespond 201 created_body)
           [EvRedisDel "chatrooms:user:1" true; EvInvalidate 1] He Hs).
Defined.

(** Redis rejects the [del] while user 1 creates a chatroom: the request
    is answered 201, and the cached list of user 1 is still there and
    still live. *)
Lemma success_with_stale_list :
  events (exec (handler CreateChatroom req_create)
            (with_redis_faults [true]
               (with_redis (Some {[chatroom_key 1 := ("[]", 5000%Z)]}) w42)))
    = [EvRespond 201 created_body; EvRedisDel "chatrooms:user:1" false; EvInvalidate 1] /\
  is_success (EvRespond 201 created_body) /\
  redis (exec (handler CreateChatroom req_create)
           (with_redis_faults [true]
              (with_redis (Some {[chatroom_key 1 := ("[]", 5000%Z)]}) w42)))
    = Some {[chatroom_key 1 := ("[]", 5000%Z)]} /\
  live 1000 {[chatroom_key 1 := ("[]", 5000%Z)]} (chatroom_key 1) = Some "[]".
Proof.
  split; [vm_compute; reflexivity|]. split; [simpl; lia|].
  split; [reflexivity|vm_compute; reflexivity].
Qed.

(** X13. A mutation that succeeds leaves no cached list behind.  When
    Redis answers, a run of a chatroom-mutating handler that sends a
    success response has deleted the chatroom-list entry of the user and
    no other entry, so the next [GET /chatroom] of that user is a miss. *)
Theorem successful_mutation_drops_the_list op req w r later e earlier :
  redis w = Some r ->
  redis_answers 2 w ->
  events (exec (handler op req) w) = later ++ e :: earlier ++ events w ->
  is_success e ->
  redis (exec (handler op req) w) = Some (delete (chatroom_key (req_user_id req)) r) /\
  (forall t, live t (delete (chatroom_key (req_user_id req)) r)
               (chatroom_key (req_user_id req)) = None) /\
  (forall k, k <> chatroom_key (req_user_id req) ->
     delete (chatroom_key (req_user_id req)) r !! k = r !! k).
Proof.
  intros Hr Ha He Hs.
  destruct (handler_cache op req w r Hr Ha) as (new & Hn & [[_ Hno]|[Hd _]]).
  - exfalso. rewrite Hn in He.
    replace (later ++ e :: earlier ++ events w) with ((later ++ e :: earlier) ++ events w) in He
      by (by rewrite <- app_assoc).
    apply app_inv_tail in He. apply (Hno e); [|done]. rewrite He. set_solver.
  - split; [done|]. split.
    + intros t. apply live_None_of_lookup, lookup_delete_eq.
    + intros k Hk. by apply lookup_delete_ne.
Qed.

Lemma successful_mutation_drops_the_list_witness :
  redis (exec (handler CreateChatroom req_create)
           (with_redis (Some {[chatroom_key 1 := ("[]", 5000%Z)]}) w42))
  = Some (delete (chatroom_key 1) {[chatroom_key 1 := ("[]", 5000%Z)]}).
Proof.
  apply (successful_mutation_drops_the_list CreateChatroom req_create
           (with_redis (Some {[chatroom_key 1 := ("[]", 5000%Z)]}) w42)
           {[chatroom_key 1 := ("[]", 5000%Z)]} [] (EvRespond 201 created_body)
           [EvRedisDel "chatrooms:user:1" true; EvInvalidate 1]).
  - reflexivity.
  - unfold redis_answers. simpl. constructor.
  - vm_compute. reflexivity.
  - simpl. lia.
Defined.

(** ** One chatroom with its messages *)






(** Sixty messages in chatroom 7 and one elsewhere: the 50 latest are
    shown, the count says 60. *)
Example get_chatroom_of_sixty :
  let ms := ((fun i => Message i 7 1 "m" user None completed i i) <$> seqZ 1 60)
              ++ [Message 61 8 1 "o" user None completed 61 61] in
  msg_id <$> shown_messages 7 ms = seqZ 11 50 /\
  row_message_count (chatroom_row_of ms (Chatroom 7 1 "room" None 0 0)) = 60%nat.
Proof. vm_compute. done. Qed.


(** ** Chatrooms of other users *)

Lemma filter_owned_by_nil i uid (cs : list chatroom) :
  (forall c, c ∈ cs -> room_id c = i -> room_user_id c <> uid) ->
  filter (owned_by i uid) cs = [].
Proof.
  intros Hno. induction cs as [|c cs IH]; [done|].
  rewrite filter_cons. destruct (decide (owned_by i uid c)) as [[Hi Hu]|_].
  - destruct (Hno c); [left|done|done].
  - apply IH. intros c' Hc. apply Hno. by right.
Qed.

Lemma update_foreign i uid (f : chatroom -> chatroom) (cs : list chatroom) :
  filter (owned_by i uid) cs = [] ->
  (fun c => if decide (owned_by i uid c) then f c else c) <$> cs = cs.
Proof.
  induction cs as [|c cs IH]; [done|].
  rewrite filter_cons. destruct (decide (owned_by i uid c)); [done|].
  intros H. rewrite fmap_cons. destruct (decide (owned_by i uid c)); [done|]. by rewrite IH.
Qed.

Lemma bind_run {A B} (m : M A) (k : A -> M B) w :
  (x <- m ;; k x) w
  = match m w with
    | (Ok a, w') => k a w'
    | (Throw e, w') => (Throw e, w')
    end.
Proof. reflexivity. Qed.

(** The handlers on a chatroom that the caller does not own. *)
Lemma handler_foreign op req i w :
  op <> CreateChatroom ->
  params_id req = Some i ->
  (forall c, c ∈ chatrooms w -> room_id c = i -> room_user_id c <> req_user_id req) ->
  let w' := exec (handler op req) w in
  chatrooms w' = chatrooms w /\ messages w' = messages w /\ usage w' = usage w /\
  redis w' = redis w /\ redis_faults w' = redis_faults w /\
  geminiQueue w' = geminiQueue w /\
  exists e, events w' = e :: events w /\ ~ is_success e.
Proof.
  intros Hop Hi Hno. cbv zeta.
  pose proof (filter_owned_by_nil i (req_user_id req) (chatrooms w) Hno) as Hf.
  destruct op; [done| | |]; simpl;
    unfold put_chatroom, delete_chatroom_handler, post_message, exec, try_catch; cbv zeta;
    rewrite Hi.
  - destruct (is_falsy _ || _).
    { destruct w; simpl. repeat split; try done. eexists. split; [done|]. simpl. lia. }
    unfold bind, update_chatroom, pool_query, not_found, respond, emit, modify.
    destruct w as [ms cs us mseq cseq t pf r rf q g es]; simpl in *.
    destruct pf as [|[] pf]; simpl; rewrite ?update_foreign by done; rewrite ?Hf; simpl;
      (repeat split; try done; eexists; split; [done|]; simpl; try lia; tauto).
  - unfold bind, delete_chatroom, pool_query, not_found, respond, emit, modify.
    destruct w as [ms cs us mseq cseq t pf r rf q g es]; simpl in *.
    destruct pf as [|[] pf]; simpl; rewrite ?Hf; simpl;
      (repeat split; try done; eexists; split; [done|]; simpl; try lia; tauto).
  - destruct (is_falsy _ || _).
    { destruct w; simpl. repeat split; try done. eexists. split; [done|]. simpl. lia. }
    rewrite bind_run. unfold select_chatroom, pool_query, not_found, respond, emit, modify.
    destruct w as [ms cs us mseq cseq t pf r rf q g es].
    simpl in Hf, Hno.
    destruct pf as [|[] pf]; simpl; rewrite ?Hf; simpl;
      (repeat split; try done; eexists; split; [done|]; simpl; try lia; tauto).
Qed.

Section foreign_chatrooms.
Variable iso_date : Z -> string.

(** How the rate limiter ends: it hands on the user, having at most reset
    the count of that user, or it has answered with 429 or 500; it touches
    nothing else. *)
Lemma rateLimiter_outcome (u : auth_user) w :
  exists p w1,
    rateLimiter iso_date (Some u) w = (Ok p, w1) /\
    chatrooms w1 = chatrooms w /\ messages w1 = messages w /\ redis w1 = redis w /\
    redis_faults w1 = redis_faults w /\ geminiQueue w1 = geminiQueue w /\
    (usage w1 = usage w \/ usage w1 = alter (fun _ => 0%Z) (au_id u) (usage w)) /\
    match p with
    | Passed (Some u') =>
        au_id u' = au_id u /\ au_subscription_tier u' = au_subscription_tier u /\
        events w1 = events w
    | Passed None => False
    | Answered => exists e, events w1 = e :: events w /\ ~ is_success e
    end.
Proof.
  unfold rateLimiter, reset_usage, pool_query, try_catch, bind, get_world, ret, respond, emit,
    modify.
  destruct w as [ms cs us mseq cseq t pf r rf q g es]; simpl.
  destruct (decide (au_subscription_tier u = "basic")) as [Ht|Ht]; simpl;
    [|eexists _, _; split; [reflexivity|]; simpl; repeat split; auto].
  destruct (decide (differs_from (au_last_usage_reset u) (iso_date t))) as [Hd|Hd]; simpl.
  - destruct pf as [|[] pf]; simpl; eexists _, _; (split; [reflexivity|]); simpl;
      repeat split; auto; eexists; split; [reflexivity|]; simpl; lia.
  - destruct (decide (5 <= au_daily_usage_count u)%Z); simpl;
      eexists _, _; (split; [reflexivity|]); simpl; repeat split; auto.
    eexists; split; [reflexivity|]; simpl; lia.
Qed.

(** X15. What a user does not own is out of reach.  An update or a
    deletion aimed at a chatroom id for which the caller owns no chatroom,
    whether the id is unknown or belongs to another user, changes no
    chatroom, no message, no usage count, no cache entry and no queue,
    whatever the store's faults, and its one response is not a success.  A
    message aimed at such an id goes through the rate limiter first: the
    route changes no chatroom, no message, no cache entry and no queue, it
    emits one event, which is not a success, and of the usage counts it
    changes at most that of the caller, which the limiter may reset to 0. *)
Theorem foreign_chatroom_is_untouched uid i w :
  (forall c, c ∈ chatrooms w -> room_id c = i -> room_user_id c <> uid) ->
  (forall op req,
     op = UpdateChatroom \/ op = DeleteChatroom ->
     req_user_id req = uid -> params_id req = Some i ->
     let w' := exec (handler op req) w in
     chatrooms w' = chatrooms w /\ messages w' = messages w /\ usage w' = usage w /\
     redis w' = redis w /\ redis_faults w' = redis_faults w /\
     geminiQueue w' = geminiQueue w /\
     exists e, events w' = e :: events w /\ ~ is_success e) /\
  (forall u content,
     au_id u = uid ->
     let w' := exec (message_route iso_date (Some u) (Some i) content) w in
     chatrooms w' = chatrooms w /\ messages w' = messages w /\
     redis w' = redis w /\ redis_faults w' = redis_faults w /\
     geminiQueue w' = geminiQueue w /\
     (usage w' = usage w \/ usage w' = alter (fun _ => 0%Z) uid (usage w)) /\
     (forall k, k <> uid -> usage w' !! k = usage w !! k) /\
     exists e, events w' = e :: events w /\ ~ is_success e).
Proof.
  intros Hno. split.
  - intros op req Hop Hu Hi. apply (handler_foreign op req i w); [|done|by rewrite Hu].
    by destruct Hop as [->| ->].
  - intros u content Hu. subst uid. cbv zeta. unfold exec, message_route, bind.
    destruct (rateLimiter_outcome u w)
      as (p & w1 & -> & Hcs & Hms & Hr & Hrf & Hq & Hus & Hp).
    assert (Hother : forall k, k <> au_id u -> usage w1 !! k = usage w !! k).
    { intros k Hk. destruct Hus as [-> | ->]; [done|]. by apply lookup_alter_ne. }
    destruct p as [[u'|]|]; [|done|].
    + destruct Hp as (Hid & Htier & Hev).
      set (req := Request (au_id u') (au_subscription_tier u') (Some i) None None content).
      destruct (handler_foreign SendMessage req i w1) as (Hc & Hm & Hu' & Hr' & Hrf' & Hq' & He).
      * discriminate.
      * reflexivity.
      * intros c Hc. rewrite Hcs in Hc. simpl. rewrite Hid. by apply Hno.
      * simpl in *. unfold exec in *. destruct He as (e & He & Hs).
        rewrite Hc, Hm, Hu', Hr', Hrf', Hq', He, Hev. repeat split; try done. by exists e.
    + simpl. destruct Hp as (e & He & Hs). repeat split; try done. by exists e.
Qed.
End foreign_chatrooms.

Lemma foreign_chatroom_is_untouched_witness :
  chatrooms (exec (handler DeleteChatroom (Request 2 "basic" (Some 7%Z) None None None)) w42)
    = chatrooms w42 /\
  messages (exec (message_route (fun _ => "2026-11-02")
                    (Some (AuthUser 2 "basic" 4 (ResetDate 0))) (Some 7%Z) (Some "Hi")) w42)
    = messages w42.
Proof.
  destruct (foreign_chatroom_is_untouched (fun _ => "2026-11-02") 2 7 w42) as [Hh Hr].
  - intros c Hc Hi. apply list_elem_of_singleton in Hc as ->. simpl. lia.
  - destruct (Hh DeleteChatroom (Request 2 "basic" (Some 7%Z) None None None))
      as (Hc & _); [by right|reflexivity|reflexivity|].
    destruct (Hr (AuthUser 2 "basic" 4 (ResetDate 0)) (Some "Hi") eq_refl) as (_ & Hm & _).
    split; [exact Hc|exact Hm].
Defined.

(** User 2, with count 4, sends a message to chatroom 7 of user 1: the
    answer is 404 and the count of user 2 is 0. *)
Example foreign_message_resets_the_count :
  exists body,
    events (exec (message_route (fun _ => "2026-11-02")
                    (Some (AuthUser 2 "basic" 4 (ResetDate 0))) (Some 7%Z) (Some "Hi"))
              (with_usage (fun _ => {[2%Z := 4%Z]}) w42))
      = [EvRespond 404 body] /\
    usage (exec (message_route (fun _ => "2026-11-02")
                   (Some (AuthUser 2 "basic" 4 (ResetDate 0))) (Some 7%Z) (Some "Hi"))
             (with_usage (fun _ => {[2%Z := 4%Z]}) w42)) !! 2%Z = Some 0%Z.
Proof. eexists. split; vm_compute; reflexivity. Qed.

(** ** Creating a chatroom *)

Lemma length_rev_app (s1 s2 : string) :
  String.length (String.rev_app s1 s2) = (String.length s1 + String.length s2)%nat.
Proof.
  revert s2. induction s1 as [|a s1 IH]; intros s2; simpl; [done|].
  rewrite IH. simpl. lia.
Qed.

Lemma length_trim_start (s : string) : (String.length (trim_start s) <= String.length s)%nat.
Proof.
  induction s as [|a s IH]; simpl; [done|]. destruct (Ascii.is_space a); simpl; lia.
Qed.

Lemma length_trim (s : string) : (String.length (trim s) <= String.length s)%nat.
Proof.
  unfold trim, String.rev. rewrite length_rev_app. simpl.
  pose proof (length_trim_start (String.rev_app (trim_start s) "")) as H.
  rewrite length_rev_app in H. simpl in H.
  pose proof (length_trim_start s). unfold String.rev in *. lia.
Qed.

Lemma trim_or_null_nonempty (s : option string) : trim_or_null s <> Some "".
Proof. destruct s as [s|]; simpl; [|done]. by destruct (trim s). Qed.

(** [clearChatroomCache] returns normally and leaves the store alone. *)
Lemma clearChatroomCache_store uid w :
  exists w',
    clearChatroomCache uid w = (Ok tt, w') /\
    chatrooms w' = chatrooms w /\ messages w' = messages w /\ usage w' = usage w /\
    geminiQueue w' = geminiQueue w /\ pool_faults w' = pool_faults w.
Proof.
  unfold clearChatroomCache, redis_del, try_catch, bind, getRedis, redis_command, ret,
    throw, emit, modify.
  destruct w as [ms cs us mseq cseq t pf r rf q g es]; simpl.
  destruct r as [r|]; simpl; [|by eexists].
  destruct rf as [|[] rf]; simpl; by eexists.
Qed.

(** X16. Creating a chatroom, for a request whose title and description
    are absent or texts of ASCII characters.  A request whose title is
    missing, empty, blank, or longer than 200 characters before trimming
    is refused with 400 and changes nothing.  Any other such request, when
    the store answers and whatever the cache does, appends one chatroom of
    the caller with the next id and answers 201 with that id and title:
    the stored title is the trimmed one, never empty and never longer than
    200 characters, and a blank description is stored as null, never as an
    empty string. *)
Theorem post_chatroom_stores_the_trimmed_title req w :
  let w' := exec (post_chatroom req) w in
  let title := default "" (body_title req) in
  ascii_only title = true ->
  ascii_only (default "" (body_description req)) = true ->
  ((trim title = "" \/ (200 < String.length title)%nat) ->
     exists body, w' = with_events (EvRespond 400 body :: events w) w) /\
  (trim title <> "" -> (String.length title <= 200)%nat -> store_answers 1 w ->
     exists c later body,
       chatrooms w' = chatrooms w ++ [c] /\ messages w' = messages w /\
       c = Chatroom (chatroom_seq w) (req_user_id req) (trim title)
             (trim_or_null (body_description req)) (now w) (now w) /\
       (0 < String.length (room_title c) <= 200)%nat /\
       room_description c <> Some "" /\
       events w' = EvRespond 201 body :: later ++ events w /\
       (js_get "chatroom" body ≫= js_get "id") = Some (JNum (room_id c)) /\
       (js_get "chatroom" body ≫= js_get "title") = Some (JStr (room_title c))).
Proof.
  cbv zeta. intros _ _. unfold post_chatroom, exec, try_catch. cbv zeta.
  assert (Hfalsy : is_falsy (body_title req) = true -> trim (default "" (body_title req)) = "").
  { destruct (body_title req) as [[|a s]|]; simpl; done. }
  split.
  - intros H.
    destruct (is_falsy _ || bool_decide _) eqn:Hv; [by eexists|].
    apply orb_false_elim in Hv as [_ Hv]. apply bool_decide_eq_false in Hv.
    destruct H as [H|H]; [by rewrite H in Hv|].
    rewrite bool_decide_eq_true_2 by done. by eexists.
  - intros Ht Hl Ha.
    destruct (is_falsy _) eqn:Hf; [by destruct Ht; apply Hfalsy|].
    rewrite bool_decide_eq_false_2.
    2:{ intros H. apply Ht. by destruct (trim _). }
    rewrite bool_decide_eq_false_2 by lia. simpl.
    rewrite bind_run.
    assert (Hq : exists pf',
      insert_chatroom (req_user_id req) (trim (default "" (body_title req)))
        (trim_or_null (body_description req)) w
      = (Ok (Chatroom (chatroom_seq w) (req_user_id req) (trim (default "" (body_title req)))
               (trim_or_null (body_description req)) (now w) (now w)),
         with_chatroom_seq (chatroom_seq w + 1)%Z
           (with_chatrooms (fun cs => cs ++ [Chatroom (chatroom_seq w) (req_user_id req)
                                              (trim (default "" (body_title req)))
                                              (trim_or_null (body_description req))
                                              (now w) (now w)])
              (with_pool_faults pf' w)))).
    { unfold insert_chatroom, pool_query, store_answers in *.
      destruct w as [ms cs us mseq cseq t pf r rf q g es]; simpl in *.
      destruct pf as [|[] pf]; simpl in *; decompose_Forall; try discriminate; by eexists. }
    destruct Hq as [pf' ->].
    set (c := Chatroom _ _ _ _ _ _).
    match goal with |- context [with_chatroom_seq ?n ?x] => set (w1 := with_chatroom_seq n x) end.
    rewrite bind_run.
    destruct (clearChatroomCache_events (req_user_id req) w1) as (w2 & dels & Hc & He & _).
    destruct (clearChatroomCache_store (req_user_id req) w1) as (w2' & Hc' & Hcs & Hms & _).
    rewrite Hc in Hc'. injection Hc' as <-. rewrite Hc.
    unfold respond, emit, modify. simpl.
    exists c, (dels ++ [EvInvalidate (req_user_id req)]), 
      (js_object [
         ("message", JStr "Chatroom created successfully");
         ("chatroom", js_object [
            ("id", JNum (room_id c));
            ("title", JStr (room_title c));
            ("description", js_opt_str (room_description c));
            ("created_at", JNum (room_created_at c));
            ("updated_at", JNum (room_updated_at c));
            ("message_count", JNum 0)])]).
    destruct w2 as [ms2 cs2 us2 mseq2 cseq2 t2 pf2 r2 rf2 q2 g2 es2]. simpl in *.
    split; [by destruct w|]. split; [by destruct w|]. split; [done|].
    split.
    { pose proof (length_trim (default "" (body_title req))).
      split; [|lia]. destruct (trim _); [done|simpl; lia]. }
    split; [apply trim_or_null_nonempty|].
    split; [rewrite He, <- app_assoc; by destruct w|].
    split; reflexivity.
Qed.

(** A title of one letter followed by 200 blanks is refused although it
    trims to one letter; a title of 200 letters is accepted although the
    message says "less than 200". *)
Example post_chatroom_title_limits :
  let long := "a" +:+ String.concat "" (replicate 200 " ") in
  let full := String.concat "" (replicate 200 "a") in
  trim long = "a" /\
  events (exec (post_chatroom (Request 1 "basic" None (Some long) None None)) w42)
    = [EvRespond 400 (js_object [("error", JStr "Validation Error");
                                 ("message", JStr "Title must be less than 200 characters")])] /\
  length (chatrooms (exec (post_chatroom (Request 1 "basic" None (Some full) None None)) w42))
    = 2%nat.
Proof. vm_compute. done. Qed.

Lemma post_chatroom_stores_the_trimmed_title_witness :
  exists c later body,
    chatrooms (exec (post_chatroom (Request 1 "basic" None (Some " Plans ") (Some "  ") None)) w42)
      = chatrooms w42 ++ [c] /\
    c = Chatroom 8 1 "Plans" None 1000 1000 /\
    events (exec (post_chatroom (Request 1 "basic" None (Some " Plans ") (Some "  ") None)) w42)
      = EvRespond 201 body :: later ++ events w42.
Proof.
  destruct (proj2 (post_chatroom_stores_the_trimmed_title
                     (Request 1 "basic" None (Some " Plans ") (Some "  ") None) w42
                     eq_refl eq_refl))
    as (c & later & body & Hc & _ & Hr & _ & _ & He & _).
  - vm_compute. discriminate.
  - vm_compute. lia.
  - unfold store_answers. simpl. constructor.
  - exists c, later, body. split; [exact Hc|]. split; [exact Hr|exact He].
Defined.

(** ** The reply to a message and the state of the answer *)

(** A message sent under the mock queue while the store answers. *)
Lemma post_message_mock_run (Q : world -> Prop) req room text w :
  params_id req = Some room ->
  body_content req = Some text ->
  trim text <> "" ->
  filter (owned_by room (req_user_id req)) (chatrooms w) <> [] ->
  store_answers 7 w ->
  geminiQueue w = Some MockQueue ->
  (forall w',
     (exists T body,
        EvRespond 201 body ∈ events w' /\
        (js_get "ai_message" body ≫= js_get "id") = Some (JNum (message_seq w + 1)) /\
        (js_get "ai_message" body ≫= js_get "status") = Some (JStr "pending") /\
        (js_get "ai_message" body ≫= js_get "content")
          = Some (JStr "Processing your request...") /\
        messages w'
        = set_response T T completed (now w) (message_seq w + 1) <$>
            (set_status processing (message_seq w + 1) <$>
               ((messages w ++ [Message (message_seq w) room (req_user_id req) (trim text) user
                                  None completed (now w) (now w)])
                  ++ [Message (message_seq w + 1) room (req_user_id req)
                        "Processing your request..." ai None pending (now w) (now w)]))) ->
     Q w') ->
  Q (exec (post_message req) w).
Proof.
  intros Hp Hc Ht Ho Hs Hq HQ.
  assert (Hf : is_falsy (Some text) || bool_decide (String.length (trim text) = 0)%nat = false).
  { destruct text as [|a text]; [done|]. simpl.
    apply bool_decide_eq_false. by destruct (trim (String a text)). }
  unfold post_message, exec, try_catch.
  cbv zeta. rewrite Hp, Hc. cbv beta iota.
  change (default "" (Some text)) with text. rewrite Hf.
  unfold store_answers in Hs.
  destruct w as [ms cs us mseq cseq t pf r rf q g es]; simpl in *. subst q.
  destruct (filter (owned_by room (req_user_id req)) cs) as [|c0 cs0] eqn:Hfl; [done|].
  revert HQ.
  destruct pf as [|[] [|[] [|[] [|[] [|[] [|[] [|[] pf]]]]]]]; simpl in Hs; decompose_Forall;
    try discriminate; intros HQ.
  all: unfold select_chatroom, insert_message, pool_query, bind, ret, emit, modify;
    simpl; rewrite Hfl; simpl.
  all: match goal with |- context [addGeminiJob ?d0 ?x] =>
         rewrite (addGeminiJob_mock x d0 eq_refl);
         rewrite (processGeminiJob_answered x d0)
           by (unfold store_answers; simpl; repeat constructor)
       end.
  all: simpl.
  all: match goal with |- context [set_response ?T0 _ completed _ _ <$> _] =>
         set (T := T0); clearbody T end.
  all: match goal with |- context [clearChatroomCache ?u ?x] =>
         destruct (clearChatroomCache_store u x) as (w5 & Hcl & _ & Hms & _ & _ & Hpf);
         rewrite Hcl; clear Hcl
       end.
  all: simpl in Hms, Hpf; simpl.
  all: unfold increment_usage, pool_query.
  all: destruct w5 as [ms5 cs5 us5 mseq5 cseq5 t5 pf5 r5 rf5 q5 g5 es5]; simpl in *; subst pf5 ms5;
    try (destruct pf as [|[] pf]);
    destruct (decide (req_subscription_tier req = "basic")); simpl.
  all: apply HQ; exists T; eexists; simpl; (split;
    [first [apply list_elem_of_here|apply list_elem_of_further, list_elem_of_here]|]).
  all: split; [vm_compute; reflexivity|]; split; [vm_compute; reflexivity|];
    split; [vm_compute; reflexivity|].
  all: reflexivity.
Qed.

(** The same message under the durable queue, with Redis answering. *)
Lemma post_message_bull_run (Q : world -> Prop) req room text w jobs c :
  params_id req = Some room ->
  body_content req = Some text ->
  trim text <> "" ->
  filter (owned_by room (req_user_id req)) (chatrooms w) <> [] ->
  store_answers 7 w ->
  geminiQueue w = Some (BullQueue jobs c) ->
  redis_answers 1 w ->
  (forall w',
     (exists body,
        EvRespond 201 body ∈ events w' /\
        (js_get "ai_message" body ≫= js_get "status") = Some (JStr "pending") /\
        messages w'
        = (messages w ++ [Message (message_seq w) room (req_user_id req) (trim text) user
                            None completed (now w) (now w)])
            ++ [Message (message_seq w + 1) room (req_user_id req)
                  "Processing your request..." ai None pending (now w) (now w)]) ->
     Q w') ->
  Q (exec (post_message req) w).
Proof.
  intros Hp Hc Ht Ho Hs Hq Hr HQ.
  assert (Hf : is_falsy (Some text) || bool_decide (String.length (trim text) = 0)%nat = false).
  { destruct text as [|a text]; [done|]. simpl.
    apply bool_decide_eq_false. by destruct (trim (String a text)). }
  unfold post_message, exec, try_catch.
  cbv zeta. rewrite Hp, Hc. cbv beta iota.
  change (default "" (Some text)) with text. rewrite Hf.
  unfold store_answers in Hs. unfold redis_answers in Hr.
  destruct w as [ms cs us mseq cseq t pf r rf q g es]; simpl in *. subst q.
  destruct (filter (owned_by room (req_user_id req)) cs) as [|c0 cs0] eqn:Hfl; [done|].
  revert HQ.
  destruct pf as [|[] [|[] [|[] [|[] [|[] [|[] [|[] pf]]]]]]]; simpl in Hs; decompose_Forall;
    try discriminate; intros HQ.
  all: unfold select_chatroom, insert_message, pool_query, bind, ret, emit, modify;
    simpl; rewrite Hfl; simpl.
  all: match goal with |- context [addGeminiJob ?d0 ?x] =>
         rewrite (addGeminiJob_bull x d0 jobs c eq_refl) by exact Hr
       end.
  all: simpl.
  all: match goal with |- context [clearChatroomCache ?u ?x] =>
         destruct (clearChatroomCache_store u x) as (w5 & Hcl & _ & Hms & _ & _ & Hpf);
         rewrite Hcl; clear Hcl
       end.
  all: simpl in Hms, Hpf; simpl.
  all: unfold increment_usage, pool_query.
  all: destruct w5 as [ms5 cs5 us5 mseq5 cseq5 t5 pf5 r5 rf5 q5 g5 es5]; simpl in *; subst pf5 ms5;
    try (destruct pf as [|[] pf]);
    destruct (decide (req_subscription_tier req = "basic")); simpl.
  all: apply HQ; eexists; simpl; (split;
    [first [apply list_elem_of_here|apply list_elem_of_further, list_elem_of_here]|]).
  all: split; [vm_compute; reflexivity|].
  all: reflexivity.
Qed.

(** X17. Under the mock queue the answer is generated before the reply
    is sent, and the reply does not say so.  When the store answers the
    seven queries up to the response, a valid message to an owned chatroom
    is answered with 201 and an [ai_message] of status "pending" and the
    placeholder text, while the row of that message is already completed
    and holds the generated text.  Under the durable queue, with Redis
    answering, the row is the pending placeholder the reply describes. *)
Theorem mock_reply_says_pending req room text w :
  params_id req = Some room ->
  body_content req = Some text ->
  trim text <> "" ->
  filter (owned_by room (req_user_id req)) (chatrooms w) <> [] ->
  store_answers 7 w ->
  let w' := exec (post_message req) w in
  let placeholder :=
    Message (message_seq w + 1) room (req_user_id req) "Processing your request..." ai None
      pending (now w) (now w) in
  (geminiQueue w = Some MockQueue ->
   exists body T,
     EvRespond 201 body ∈ events w' /\
     (js_get "ai_message" body ≫= js_get "id") = Some (JNum (message_seq w + 1)) /\
     (js_get "ai_message" body ≫= js_get "status") = Some (JStr "pending") /\
     (js_get "ai_message" body ≫= js_get "content") = Some (JStr "Processing your request...") /\
     set_response T T completed (now w) (message_seq w + 1) placeholder ∈ messages w' /\
     (forall m, m ∈ messages w' -> msg_id m = (message_seq w + 1)%Z ->
        msg_status m = completed /\ msg_content m = T /\ msg_gemini_response m = Some T)) /\
  (forall jobs c, geminiQueue w = Some (BullQueue jobs c) -> redis_answers 1 w ->
   exists body,
     EvRespond 201 body ∈ events w' /\
     (js_get "ai_message" body ≫= js_get "status") = Some (JStr "pending") /\
     placeholder ∈ messages w').
Proof.
  intros Hp Hc Ht Ho Hs. cbv zeta. split.
  - intros Hq. pattern (exec (post_message req) w).
    apply (post_message_mock_run _ req room text w Hp Hc Ht Ho Hs Hq).
    intros w' (T & body & He & Hi & Hst & Hco & Hm).
    exists body, T. split; [done|]. split; [done|]. split; [done|]. split; [done|].
    split.
    + rewrite Hm. apply list_elem_of_fmap. eexists. split; [|apply list_elem_of_fmap; eexists;
        split; [reflexivity|apply elem_of_app; right; apply list_elem_of_here]].
      by rewrite set_response_set_status.
    + intros m Hin Hid. rewrite Hm in Hin.
      apply list_elem_of_fmap in Hin as (m0 & -> & _).
      destruct (set_response_target T T completed (now w) (message_seq w + 1) m0)
        as (Hid0 & Hset & _).
      rewrite Hid0 in Hid. by apply Hset.
  - intros jobs c Hq Hr. pattern (exec (post_message req) w).
    apply (post_message_bull_run _ req room text w jobs c Hp Hc Ht Ho Hs Hq Hr).
    intros w' (body & He & Hst & Hm).
    exists body. split; [done|]. split; [done|].
    rewrite Hm. apply elem_of_app. right. apply list_elem_of_here.
Qed.

Lemma mock_reply_says_pending_witness :
  exists body,
    EvRespond 201 body ∈ events (exec (post_message req_hi) w42) /\
    (js_get "ai_message" body ≫= js_get "status") = Some (JStr "pending") /\
    message_view <$> messages (exec (post_message req_hi) w42)
      = [(42%Z, pending, "Processing your request...", None); (41%Z, completed, "Hi", None);
         (43%Z, completed, "Hi", None); (44%Z, completed, "Hello", Some "Hello")].
Proof.
  destruct (mock_reply_says_pending req_hi 7 "Hi" w42) as [Hm _].
  - reflexivity.
  - reflexivity.
  - vm_compute. discriminate.
  - vm_compute. discriminate.
  - unfold store_answers. simpl. constructor.
  - destruct (Hm eq_refl) as (body & T & He & _ & Hs & _).
    exists body. split; [exact He|]. split; [exact Hs|]. vm_compute. reflexivity.
Defined.

(** ** What a run of the job may touch *)

Ltac some_drop :=
  first [exists 0%nat; split; [lia|reflexivity] | exists 1%nat; split; [lia|reflexivity]
        |exists 2%nat; split; [lia|reflexivity] | exists 3%nat; split; [lia|reflexivity]
        |exists 4%nat; split; [lia|reflexivity]].

Ltac kept_fields :=
  intros m; unfold compose, set_response, set_status, set_status_content, id;
  repeat case_decide; simpl in *; repeat split; first [done|congruence].

(** X18. A run of the job rewrites rows of its message in place and
    nothing else.  Whatever the store and the Generation Collaborator do,
    the processor adds and removes no message, leaves id, chatroom, owner,
    type and creation time of every row as they were, leaves every row of
    another id untouched, and changes no chatroom, usage count, sequence,
    queue, cache entry or event; it sends at most four queries. *)
Theorem processGeminiJob_rewrites_in_place d w :
  let w' := exec (processGeminiJob d) w in
  (exists f, messages w' = f <$> messages w /\
     forall m, msg_id (f m) = msg_id m /\ msg_chatroom_id (f m) = msg_chatroom_id m /\
               msg_user_id (f m) = msg_user_id m /\
               msg_message_type (f m) = msg_message_type m /\
               msg_created_at (f m) = msg_created_at m /\
               (msg_id m <> messageId d -> f m = m)) /\
  chatrooms w' = chatrooms w /\ usage w' = usage w /\ message_seq w' = message_seq w /\
  chatroom_seq w' = chatroom_seq w /\ geminiQueue w' = geminiQueue w /\ redis w' = redis w /\
  events w' = events w /\
  exists n, (n <= 4)%nat /\ pool_faults w' = drop n (pool_faults w).
Proof.
  destruct w as [ms cs us mseq cseq t pf r rf q g es].
  destruct pf as [|[] [|[] [|[] [|[] pf]]]]; unfold_async; simpl;
    repeat match goal with |- context [g ?p] => destruct (g p) end; simpl.
  all: (split; [|repeat (split; [reflexivity|]); some_drop]).
  all: rewrite <- ?list_fmap_compose;
    first [eexists; split; [reflexivity|kept_fields]
          |exists id; split; [by rewrite list_fmap_id|kept_fields]].
Qed.

(** ** Counting usage *)

(** X19. [incrementUsage] never stops the chain.  It answers nothing
    and throws nothing: whatever the store does, the middleware hands the
    request on.  For a basic user and an answering store the count of that
    user goes up by one; for any other caller the world is left as it
    was. *)
Theorem incrementUsage_always_passes user w :
  let w' := exec (incrementUsage user) w in
  eval (incrementUsage user) w = Ok (Passed user) /\
  events w' = events w /\ messages w' = messages w /\ chatrooms w' = chatrooms w /\
  (forall u, user = Some u -> au_subscription_tier u = "basic" -> store_answers 1 w ->
     usage w' = alter Z.succ (au_id u) (usage w)) /\
  ((user = None \/ exists u, user = Some u /\ au_subscription_tier u <> "basic") -> w' = w).
Proof.
  cbv zeta. unfold incrementUsage, eval, exec, try_catch, bind, ret, increment_usage,
    pool_query, store_answers.
  destruct w as [ms cs us mseq cseq t pf r rf q g es].
  destruct user as [u|]; simpl;
    [destruct (decide (au_subscription_tier u = "basic")) as [Hb|Hb]; simpl;
       [destruct pf as [|[] pf]; simpl|]|].
  all: repeat split; try done.
  all: try (intros u' Hu Ht Ha; injection Hu as <-; first [done|by decompose_Forall]).
  all: intros [Hu|(u' & Hu & Hn)]; [discriminate|injection Hu as <-; done].
Qed.
